(** * TCP_Analyzer: the stateful connection tracker of tcp_analyzer.cpp

    A shallow embedding of [make_canonical_id], [process_tcp_packet] and of
    the capture loop of [main] (src/TCP_Analyzer/tcp_analyzer.cpp), with the
    properties of the tracker stated over it.

    - [uint32_t], [uint16_t] and [int] values are integers of [Z]; none of the
      arithmetic of the program can leave its type's range (the largest
      quantity is a 16-bit total length minus two header lengths).
    - the global [std::map<ConnectionID, TcpState> connection_tracker] is a
      [gmap ConnectionID TcpState] passed in and out of every function.
    - every [printf] of [process_tcp_packet] is one [Event] appended to the
      output; the time stamp and the rendering of addresses are left out.
    - the 65536-byte receive buffer is a function from offsets to bytes; the
      loop reads offsets below 88 only. *)

From Stdlib Require Import ZArith List Bool Lia.
From Stdlib Require Import Strings.Byte.
From stdpp Require Import base option gmap list strings pretty.

Local Open Scope Z_scope.

(* ------------------------------------------------------------------ *)
(** ** Byte order of the host *)

(** The program is built for Linux on whatever machine runs it; the fields of
    the packed header structs are read in the byte order of that machine. *)
Inductive Endianness : Set := LittleEndian | BigEndian.

Definition byte_val (b : byte) : Z := Z.of_N (Byte.to_N b).

(** [unsigned char buffer[65536]] *)
Definition Buffer : Type := nat -> byte.

Definition load8 (buffer : Buffer) (off : nat) : Z := byte_val (buffer off).

(** Reading a [uint16_t] field of a header struct: the two bytes in the order
    of the host. *)
Definition load16 (h : Endianness) (buffer : Buffer) (off : nat) : Z :=
  match h with
  | LittleEndian => load8 buffer off + 256 * load8 buffer (off + 1)
  | BigEndian => 256 * load8 buffer off + load8 buffer (off + 1)
  end.

(** Reading a [uint32_t] field of a header struct. *)
Definition load32 (h : Endianness) (buffer : Buffer) (off : nat) : Z :=
  match h with
  | LittleEndian =>
      load8 buffer off + 256 * load8 buffer (off + 1)
      + 65536 * load8 buffer (off + 2) + 16777216 * load8 buffer (off + 3)
  | BigEndian =>
      16777216 * load8 buffer off + 65536 * load8 buffer (off + 1)
      + 256 * load8 buffer (off + 2) + load8 buffer (off + 3)
  end.

(** [ntohs] of <arpa/inet.h>: the identity on a big-endian host, a swap of the
    two bytes on a little-endian one. *)
Definition ntohs (h : Endianness) (v : Z) : Z :=
  match h with
  | BigEndian => v
  | LittleEndian => (v mod 256) * 256 + v / 256
  end.

(** The number a 16-bit field of the wire denotes (most significant byte
    first). *)
Definition wire16 (buffer : Buffer) (off : nat) : Z :=
  256 * load8 buffer off + load8 buffer (off + 1).

(** [inet_addr] for an address given by its octets: the [uint32_t] that holds
    the address in network byte order on host [h], which is the form
    [ip_to_string] (through [inet_ntoa]) expects. *)
Definition inet_addr (h : Endianness) (a b c d : Z) : Z :=
  match h with
  | LittleEndian => a + 256 * b + 65536 * c + 16777216 * d
  | BigEndian => 16777216 * a + 65536 * b + 256 * c + d
  end.

(** The same address as a number in host byte order ([ntohl] of the above). *)
Definition host_order_addr (a b c d : Z) : Z :=
  16777216 * a + 65536 * b + 256 * c + d.

(* ------------------------------------------------------------------ *)
(** ** States, connection identifiers, the tracker *)

Inductive TcpState : Set :=
  | CLOSED
  | SYN_SENT
  | SYN_RECEIVED
  | ESTABLISHED
  | FIN_WAIT_1
  | FIN_WAIT_2
  | CLOSE_WAIT
  | LAST_ACK
  | TIME_WAIT
  | CLOSING.

#[global] Instance TcpState_eq_dec : EqDecision TcpState.
Proof. solve_decision. Defined.

Record ConnectionID : Set := mkConnectionID {
  src_ip : Z;
  dst_ip : Z;
  src_port : Z;
  dst_port : Z
}.

#[global] Instance ConnectionID_eq_dec : EqDecision ConnectionID.
Proof. solve_decision. Defined.

(** [operator<] of [ConnectionID] is the lexicographic order on the four
    fields, so two keys of the [std::map] are the same key exactly when the
    four fields agree: the map is a finite map on [ConnectionID]. *)
#[global] Instance ConnectionID_countable : Countable ConnectionID.
Proof.
  refine (inj_countable'
            (fun c => (src_ip c, dst_ip c, src_port c, dst_port c))
            (fun t => match t with (a, b, c, d) => mkConnectionID a b c d end) _).
  intros []; reflexivity.
Defined.

Definition ConnectionID_lt (x y : ConnectionID) : bool :=
  if negb (src_ip x =? src_ip y) then src_ip x <? src_ip y
  else if negb (dst_ip x =? dst_ip y) then dst_ip x <? dst_ip y
  else if negb (src_port x =? src_port y) then src_port x <? src_port y
  else dst_port x <? dst_port y.

Definition make_canonical_id (ip1 port1 ip2 port2 : Z) : ConnectionID :=
  if ip1 <? ip2 then
    {| src_ip := ip1; src_port := port1; dst_ip := ip2; dst_port := port2 |}
  else if ip1 >? ip2 then
    {| src_ip := ip2; src_port := port2; dst_ip := ip1; dst_port := port1 |}
  else if port1 <? port2 then
    {| src_ip := ip1; src_port := port1; dst_ip := ip2; dst_port := port2 |}
  else
    {| src_ip := ip2; src_port := port2; dst_ip := ip1; dst_port := port1 |}.

(** [connection_tracker] *)
Abbreviation Tracker := (gmap ConnectionID TcpState).

(* ------------------------------------------------------------------ *)
(** ** The TCP header as [process_tcp_packet] reads it *)

(** The fields of [struct tcphdr] (<netinet/tcp.h>) the program uses. *)
Record tcphdr : Set := mkTcphdr {
  tcp_source : Z;
  tcp_dest : Z;
  tcp_doff : Z;
  tcp_fin : bool;
  tcp_syn : bool;
  tcp_rst : bool;
  tcp_psh : bool;
  tcp_ack : bool;
  tcp_urg : bool
}.

(* ------------------------------------------------------------------ *)
(** ** The lines [process_tcp_packet] prints *)

(** The flag named between parentheses in the printed line; [Data] is the
    line of the data-transfer branch. *)
Inductive Reason : Set := Syn | SynAck | Ack | Fin | Rst | Data.

#[global] Instance Reason_eq_dec : EqDecision Reason.
Proof. solve_decision. Defined.

(** One printed line: the flag, the two states between brackets, the two
    endpoints (ports through [ntohs]), and the byte count of a data line. *)
Record Event : Set := mkEvent {
  ev_reason : Reason;
  ev_from : TcpState;
  ev_to : TcpState;
  ev_src_ip : Z;
  ev_src_port : Z;
  ev_dst_ip : Z;
  ev_dst_port : Z;
  ev_bytes : option Z
}.

Definition is_state (s t : TcpState) : bool := bool_decide (s = t).

Definition process_tcp_packet (h : Endianness) (connection_tracker : Tracker)
    (key : ConnectionID) (tcp : tcphdr)
    (src_ip dst_ip src_port dst_port : Z) (data_len : Z)
  : Tracker * list Event :=
  let current_state := default CLOSED (connection_tracker !! key) in
  let line r s t :=
    mkEvent r s t src_ip (ntohs h src_port) dst_ip (ntohs h dst_port) None in
  if tcp_rst tcp then
    (delete key connection_tracker, [line Rst current_state CLOSED])
  else if is_state current_state CLOSED && tcp_syn tcp && negb (tcp_ack tcp) then
    (<[key := SYN_SENT]> connection_tracker, [line Syn CLOSED SYN_SENT])
  else if is_state current_state SYN_SENT && tcp_syn tcp && tcp_ack tcp then
    (<[key := ESTABLISHED]> connection_tracker, [line SynAck SYN_SENT ESTABLISHED])
  else if is_state current_state SYN_SENT && tcp_ack tcp
          && negb (tcp_syn tcp) && negb (tcp_fin tcp) then
    (<[key := ESTABLISHED]> connection_tracker, [line Ack SYN_SENT ESTABLISHED])
  else if is_state current_state ESTABLISHED && (data_len >? 0) then
    (connection_tracker,
     [mkEvent Data ESTABLISHED ESTABLISHED src_ip (ntohs h src_port)
              dst_ip (ntohs h dst_port) (Some data_len)])
  else if is_state current_state ESTABLISHED && tcp_fin tcp then
    (<[key := FIN_WAIT_1]> connection_tracker, [line Fin ESTABLISHED FIN_WAIT_1])
  else if is_state current_state FIN_WAIT_1 && tcp_ack tcp && negb (tcp_fin tcp) then
    (<[key := FIN_WAIT_2]> connection_tracker, [line Ack FIN_WAIT_1 FIN_WAIT_2])
  else if is_state current_state FIN_WAIT_1 && tcp_fin tcp then
    (<[key := CLOSING]> connection_tracker, [line Fin FIN_WAIT_1 CLOSING])
  else if is_state current_state FIN_WAIT_2 && tcp_fin tcp then
    (<[key := TIME_WAIT]> connection_tracker, [line Fin FIN_WAIT_2 TIME_WAIT])
  else if is_state current_state TIME_WAIT && tcp_ack tcp then
    (delete key connection_tracker, [line Ack TIME_WAIT CLOSED])
  else if is_state current_state CLOSING && tcp_ack tcp then
    (delete key connection_tracker, [line Ack CLOSING CLOSED])
  else if is_state current_state ESTABLISHED && tcp_fin tcp then
    (<[key := CLOSE_WAIT]> connection_tracker, [line Fin ESTABLISHED CLOSE_WAIT])
  else if is_state current_state CLOSE_WAIT && tcp_fin tcp then
    (<[key := LAST_ACK]> connection_tracker, [line Fin CLOSE_WAIT LAST_ACK])
  else if is_state current_state LAST_ACK && tcp_ack tcp then
    (delete key connection_tracker, [line Ack LAST_ACK CLOSED])
  else
    (connection_tracker, []).

(* ------------------------------------------------------------------ *)
(** ** The capture loop of [main] *)

(** [sizeof(struct ethhdr)] *)
Definition ETH_HLEN : nat := 14.

(** What the loop body extracts from the buffer before it calls
    [make_canonical_id] and [process_tcp_packet]: the local variables
    [src_ip], [dst_ip], [src_port], [dst_port], [tcp] and [tcp_data_len]. *)
Record Segment : Set := mkSegment {
  seg_src_ip : Z;
  seg_dst_ip : Z;
  seg_src_port : Z;
  seg_dst_port : Z;
  seg_tcp : tcphdr;
  seg_data_len : Z
}.

(** [struct tcphdr] at offset [off]: ports at 0 and 2, [doff] in the high half
    of byte 12, the flags in byte 13 (fin, syn, rst, psh, ack, urg from bit 0). *)
Definition read_tcphdr (h : Endianness) (buffer : Buffer) (off : nat) : tcphdr :=
  let flags := load8 buffer (off + 13) in
  {| tcp_source := load16 h buffer off;
     tcp_dest := load16 h buffer (off + 2);
     tcp_doff := Z.shiftr (load8 buffer (off + 12)) 4;
     tcp_fin := Z.testbit flags 0;
     tcp_syn := Z.testbit flags 1;
     tcp_rst := Z.testbit flags 2;
     tcp_psh := Z.testbit flags 3;
     tcp_ack := Z.testbit flags 4;
     tcp_urg := Z.testbit flags 5 |}.

(** [struct iphdr] starts at offset 14: [ihl] in the low half of byte 0,
    [tot_len] at 2, [protocol] at 9, [saddr] at 12 and [daddr] at 16. *)
Definition ip_header_len (buffer : Buffer) : Z :=
  Z.land (load8 buffer ETH_HLEN) 15 * 4.

Definition tcp_offset (buffer : Buffer) : nat :=
  (ETH_HLEN + Z.to_nat (ip_header_len buffer))%nat.

Definition tcp_header_len (h : Endianness) (buffer : Buffer) : Z :=
  tcp_doff (read_tcphdr h buffer (tcp_offset buffer)) * 4.

Definition ip_total_len (h : Endianness) (buffer : Buffer) : Z :=
  ntohs h (load16 h buffer (ETH_HLEN + 2)).

(** The header decoding of the loop body. [None] is a [continue]: the frame
    is not IPv4 or not TCP. There is no other outcome: no length is compared
    with the size [recv] returned. *)
Definition decode_frame (h : Endianness) (buffer : Buffer) : option Segment :=
  if negb (ntohs h (load16 h buffer 12) =? 0x0800) then None
  else if negb (load8 buffer (ETH_HLEN + 9) =? 6) then None
  else
    let tcp := read_tcphdr h buffer (tcp_offset buffer) in
    let src_ip := load32 h buffer (ETH_HLEN + 12) in
    let dst_ip := load32 h buffer (ETH_HLEN + 16) in
    let src_port := tcp_source tcp in
    let dst_port := tcp_dest tcp in
    let tcp_data_len :=
      ip_total_len h buffer - ip_header_len buffer - tcp_header_len h buffer in
    Some {| seg_src_ip := src_ip; seg_dst_ip := dst_ip;
            seg_src_port := src_port; seg_dst_port := dst_port;
            seg_tcp := tcp; seg_data_len := tcp_data_len |}.

(** The key the loop body builds for a decoded segment. *)
Definition segment_key (h : Endianness) (s : Segment) : ConnectionID :=
  make_canonical_id (seg_src_ip s) (ntohs h (seg_src_port s))
                    (seg_dst_ip s) (ntohs h (seg_dst_port s)).

(** The last two statements of the loop body. *)
Definition track_segment (h : Endianness) (connection_tracker : Tracker)
    (s : Segment) : Tracker * list Event :=
  process_tcp_packet h connection_tracker (segment_key h s) (seg_tcp s)
    (seg_src_ip s) (seg_dst_ip s) (seg_src_port s) (seg_dst_port s)
    (seg_data_len s).

(** What [recv] did: it failed, or it wrote a frame at the start of the buffer
    and left the rest of the buffer as it was. *)
Inductive RecvResult : Set :=
  | RecvFailed
  | Received (frame : list byte).

Definition recv_into (buffer : Buffer) (frame : list byte) : Buffer :=
  fun i => default (buffer i) (frame !! i).

(** One iteration of [while (true)]. *)
Definition loop_body (h : Endianness) (st : Buffer * Tracker) (r : RecvResult)
  : (Buffer * Tracker) * list Event :=
  match r with
  | RecvFailed => (st, [])
  | Received frame =>
      let buffer := recv_into (fst st) frame in
      match decode_frame h buffer with
      | None => ((buffer, snd st), [])
      | Some s =>
          let '(t, evs) := track_segment h (snd st) s in
          ((buffer, t), evs)
      end
  end.

(** Finitely many iterations of the loop. *)
Fixpoint capture (h : Endianness) (st : Buffer * Tracker) (rs : list RecvResult)
  : (Buffer * Tracker) * list Event :=
  match rs with
  | [] => (st, [])
  | r :: rs' =>
      let '(st1, evs1) := loop_body h st r in
      let '(st2, evs2) := capture h st1 rs' in
      (st2, evs1 ++ evs2)
  end.

(** Several segments tracked in order, as the loop does once they are
    decoded. *)
Fixpoint track_all (h : Endianness) (connection_tracker : Tracker)
    (ss : list Segment) : Tracker * list Event :=
  match ss with
  | [] => (connection_tracker, [])
  | s :: ss' =>
      let '(t1, evs1) := track_segment h connection_tracker s in
      let '(t2, evs2) := track_all h t1 ss' in
      (t2, evs1 ++ evs2)
  end.

(* ------------------------------------------------------------------ *)
(** ** The transition table of the specification *)

(** The thirteen rows of the table of the specification (section 4.3), as a
    test on the current state, the flags and the payload length: some row
    applies. This follows the words of the specification, not the code. *)
Definition spec_rule_matches (s : TcpState) (tcp : tcphdr) (payload_len : Z) : bool :=
  tcp_rst tcp
  || (is_state s CLOSED && tcp_syn tcp && negb (tcp_ack tcp))
  || (is_state s SYN_SENT && tcp_syn tcp && tcp_ack tcp)
  || (is_state s SYN_SENT && tcp_ack tcp && negb (tcp_syn tcp) && negb (tcp_fin tcp))
  || (is_state s ESTABLISHED && (payload_len >? 0))
  || (is_state s ESTABLISHED && tcp_fin tcp)
  || (is_state s FIN_WAIT_1 && tcp_ack tcp && negb (tcp_fin tcp))
  || (is_state s FIN_WAIT_1 && tcp_fin tcp)
  || (is_state s FIN_WAIT_2 && tcp_fin tcp)
  || (is_state s TIME_WAIT && tcp_ack tcp)
  || (is_state s CLOSING && tcp_ack tcp)
  || (is_state s CLOSE_WAIT && tcp_fin tcp)
  || (is_state s LAST_ACK && tcp_ack tcp).

(** The kinds of control packet the specification names. *)
Definition is_SYN (tcp : tcphdr) : bool :=
  tcp_syn tcp && negb (tcp_ack tcp) && negb (tcp_rst tcp).

Definition is_SYNACK (tcp : tcphdr) : bool :=
  tcp_syn tcp && tcp_ack tcp && negb (tcp_rst tcp).

Definition is_ACK (tcp : tcphdr) : bool :=
  tcp_ack tcp && negb (tcp_syn tcp) && negb (tcp_fin tcp) && negb (tcp_rst tcp).

Definition is_FIN (tcp : tcphdr) : bool :=
  tcp_fin tcp && negb (tcp_rst tcp).

(** The states a rule of [process_tcp_packet] can leave in the tracker when
    it starts from states of this kind. *)
Definition live_state (s : TcpState) : Prop :=
  s = SYN_SENT \/ s = ESTABLISHED \/ s = FIN_WAIT_1 \/ s = FIN_WAIT_2
  \/ s = TIME_WAIT \/ s = CLOSING.

Definition live_tracker (t : Tracker) : Prop :=
  map_Forall (fun _ s => live_state s) t.

(** A segment with zero payload travelling from the first endpoint to the
    second when [forward] holds, the other way round otherwise. The ports are
    the raw 16-bit fields, as [tcp->source] and [tcp->dest] are. *)
Definition control_segment (forward : bool) (ipA portA ipB portB : Z)
    (tcp : tcphdr) : Segment :=
  if forward then
    {| seg_src_ip := ipA; seg_dst_ip := ipB; seg_src_port := portA;
       seg_dst_port := portB; seg_tcp := tcp; seg_data_len := 0 |}
  else
    {| seg_src_ip := ipB; seg_dst_ip := ipA; seg_src_port := portB;
       seg_dst_port := portA; seg_tcp := tcp; seg_data_len := 0 |}.

Definition with_data_len (s : Segment) (n : Z) : Segment :=
  {| seg_src_ip := seg_src_ip s; seg_dst_ip := seg_dst_ip s;
     seg_src_port := seg_src_port s; seg_dst_port := seg_dst_port s;
     seg_tcp := seg_tcp s; seg_data_len := n |}.

(* ------------------------------------------------------------------ *)
(** ** Concrete frames *)

Definition byte_of_Z (z : Z) : byte := default x00 (Byte.of_N (Z.to_N z)).

Definition be16 (v : Z) : list Z := [v / 256; v mod 256].

(** Flag bytes of the TCP header. *)
Definition TH_FIN : Z := 1.
Definition TH_SYN : Z := 2.
Definition TH_ACK : Z := 16.

(** An Ethernet frame carrying IPv4 (EtherType 0x0800, ihl 5, protocol 6) and
    a TCP header without options (doff 5): 54 bytes. *)
Definition tcp_frame (src : list Z) (sport : Z) (dst : list Z) (dport : Z)
    (flags : Z) (tot_len : Z) : list byte :=
  map byte_of_Z
    ([0; 0; 0; 0; 0; 0; 0; 0; 0; 0; 0; 0; 0x08; 0x00]
     ++ [0x45; 0] ++ be16 tot_len ++ [0; 0; 0; 0; 64; 6; 0; 0] ++ src ++ dst
     ++ be16 sport ++ be16 dport
     ++ [0; 0; 0; 0; 0; 0; 0; 0; 0x50; flags; 0; 0; 0; 0; 0; 0]).

Definition zero_buffer : Buffer := fun _ => x00.

Definition client : list Z := [192; 168; 1; 100].
Definition server : list Z := [10; 0; 0; 1].

Definition frame_syn : list byte := tcp_frame client 8080 server 80 TH_SYN 40.
Definition frame_synack : list byte :=
  tcp_frame server 80 client 8080 (TH_SYN + TH_ACK) 40.
Definition frame_ack : list byte := tcp_frame client 8080 server 80 TH_ACK 40.
Definition frame_fin : list byte :=
  tcp_frame client 8080 server 80 (TH_FIN + TH_ACK) 40.
Definition frame_ack_back : list byte := tcp_frame server 80 client 8080 TH_ACK 40.
Definition frame_fin_back : list byte :=
  tcp_frame server 80 client 8080 (TH_FIN + TH_ACK) 40.

(** [frame_syn] cut after 50 of its 54 bytes. *)
Definition frame_syn_truncated : list byte := take 50 frame_syn.

(** A SYN frame whose IP total length (20) is smaller than its two headers. *)
Definition frame_syn_short_total : list byte :=
  tcp_frame client 8080 server 80 TH_SYN 20.

Definition tracker_of (r : (Buffer * Tracker) * list Event) : Tracker := snd (fst r).
Definition events_of (r : (Buffer * Tracker) * list Event) : list Event := snd r.

Definition lifecycle_frames : list RecvResult :=
  map Received [frame_syn; frame_synack; frame_ack; frame_fin; frame_ack_back;
                frame_fin_back; frame_ack].

Definition flow_key (h : Endianness) : ConnectionID :=
  {| src_ip := inet_addr h 10 0 0 1; src_port := 80;
     dst_ip := inet_addr h 192 168 1 100; dst_port := 8080 |}.

(** The part of a printed line the specification compares: the flag and the
    two states. *)
Definition transition_of (e : Event) : Reason * TcpState * TcpState :=
  (ev_reason e, ev_from e, ev_to e).

(** The number of leading bytes of the buffer the loop body looks at: the
    addresses end at offset 34, the flags byte is the fourteenth of the TCP
    header. *)
Definition decode_extent (buffer : Buffer) : nat :=
  Nat.max 34 (tcp_offset buffer + 14).

(** A TCP header with the given flags, no options. *)
Definition flags_hdr (f_fin f_syn f_rst f_ack : bool) : tcphdr :=
  {| tcp_source := 0; tcp_dest := 0; tcp_doff := 5;
     tcp_fin := f_fin; tcp_syn := f_syn; tcp_rst := f_rst; tcp_psh := false;
     tcp_ack := f_ack; tcp_urg := false |}.

Definition hdr_syn : tcphdr := flags_hdr false true false false.
Definition hdr_synack : tcphdr := flags_hdr false true false true.
Definition hdr_ack : tcphdr := flags_hdr false false false true.
Definition hdr_fin : tcphdr := flags_hdr true false false true.
Definition hdr_rst : tcphdr := flags_hdr false false true false.

Definition sample_key : ConnectionID :=
  {| src_ip := 1; dst_ip := 2; src_port := 80; dst_port := 8080 |}.

(* ------------------------------------------------------------------ *)
(** ** Rendering of states and addresses *)

(** The value of each enumerator of [enum TcpState]. *)
Definition state_value (state : TcpState) : Z :=
  match state with
  | CLOSED => 0
  | SYN_SENT => 1
  | SYN_RECEIVED => 2
  | ESTABLISHED => 3
  | FIN_WAIT_1 => 4
  | FIN_WAIT_2 => 5
  | CLOSE_WAIT => 6
  | LAST_ACK => 7
  | TIME_WAIT => 8
  | CLOSING => 9
  end.

(** [state_to_string]; its [default] case is for values outside the
    enumeration. *)
Definition state_to_string (state : TcpState) : string :=
  match state with
  | CLOSED => "CLOSED"
  | SYN_SENT => "SYN_SENT"
  | SYN_RECEIVED => "SYN_RECEIVED"
  | ESTABLISHED => "ESTABLISHED"
  | FIN_WAIT_1 => "FIN_WAIT_1"
  | FIN_WAIT_2 => "FIN_WAIT_2"
  | CLOSE_WAIT => "CLOSE_WAIT"
  | LAST_ACK => "LAST_ACK"
  | TIME_WAIT => "TIME_WAIT"
  | CLOSING => "CLOSING"
  end.

(** The four bytes of a [uint32_t] as they lie in memory on host [h], lowest
    address first. *)
Definition store32 (h : Endianness) (v : Z) : list Z :=
  let b0 := v mod 256 in
  let b1 := (v / 256) mod 256 in
  let b2 := (v / 65536) mod 256 in
  let b3 := (v / 16777216) mod 256 in
  match h with
  | LittleEndian => [b0; b1; b2; b3]
  | BigEndian => [b3; b2; b1; b0]
  end.

(** Four numbers in decimal, separated by dots. *)
Definition dotted (octets : list Z) : string :=
  String.concat "." (map (fun b => pretty (Z.to_N b)) octets).

(** [inet_ntoa] of <arpa/inet.h>: the bytes of [s_addr], which is in network
    byte order, in the order they lie in memory. *)
Definition inet_ntoa (h : Endianness) (s_addr : Z) : string :=
  dotted (store32 h s_addr).

Definition ip_to_string (h : Endianness) (ip : Z) : string := inet_ntoa h ip.

(** What a printed line shows, the time stamp apart: the flag and the states,
    the two addresses through [ip_to_string], the two ports, the byte count. *)
Definition printed (h : Endianness) (e : Event)
  : Reason * TcpState * TcpState * string * Z * string * Z * option Z :=
  (ev_reason e, ev_from e, ev_to e,
   ip_to_string h (ev_src_ip e), ev_src_port e,
   ip_to_string h (ev_dst_ip e), ev_dst_port e, ev_bytes e).

(* ------------------------------------------------------------------ *)
(** ** Flows as they are on the wire *)

(** An endpoint of a frame: the four octets of the address and the port
    number. *)
Record Endpoint : Set := mkEndpoint {
  ep_o1 : Z;
  ep_o2 : Z;
  ep_o3 : Z;
  ep_o4 : Z;
  ep_port : Z
}.

Definition octet (z : Z) : Prop := 0 <= z < 256.

Definition valid_endpoint (A : Endpoint) : Prop :=
  octet (ep_o1 A) /\ octet (ep_o2 A) /\ octet (ep_o3 A) /\ octet (ep_o4 A).

Definition endpoint_addr (h : Endianness) (A : Endpoint) : Z :=
  inet_addr h (ep_o1 A) (ep_o2 A) (ep_o3 A) (ep_o4 A).

(** The key host [h] gives the flow between two endpoints. *)
Definition wire_key (h : Endianness) (A B : Endpoint) : ConnectionID :=
  make_canonical_id (endpoint_addr h A) (ep_port A) (endpoint_addr h B) (ep_port B).

(** The sender and the receiver of the frame in the buffer. *)
Definition frame_src (buffer : Buffer) : Endpoint :=
  {| ep_o1 := load8 buffer 26; ep_o2 := load8 buffer 27;
     ep_o3 := load8 buffer 28; ep_o4 := load8 buffer 29;
     ep_port := wire16 buffer (tcp_offset buffer) |}.

Definition frame_dst (buffer : Buffer) : Endpoint :=
  {| ep_o1 := load8 buffer 30; ep_o2 := load8 buffer 31;
     ep_o3 := load8 buffer 32; ep_o4 := load8 buffer 33;
     ep_port := wire16 buffer (tcp_offset buffer + 2) |}.

(** Two trackers, one on a host of each kind, that hold the same state for
    every flow. *)
Definition same_flows (tL tB : Tracker) : Prop :=
  forall A B, valid_endpoint A -> valid_endpoint B ->
    tL !! wire_key LittleEndian A B = tB !! wire_key BigEndian A B.

(** An identifier as [make_canonical_id] builds them. *)
Definition canonical (id : ConnectionID) : Prop :=
  src_ip id < dst_ip id \/ (src_ip id = dst_ip id /\ src_port id <= dst_port id).

(** A tracker all of whose keys are canonical. *)
Definition canonical_keys (t : Tracker) : Prop :=
  map_Forall (fun k _ => canonical k) t.

(** The segments the loop decodes from the frames it receives, in order; the
    buffer is the one each frame is written into. *)
Fixpoint decoded_segments (h : Endianness) (buffer : Buffer)
    (rs : list RecvResult) : list Segment :=
  match rs with
  | [] => []
  | RecvFailed :: rs' => decoded_segments h buffer rs'
  | Received frame :: rs' =>
      let buffer' := recv_into buffer frame in
      match decode_frame h buffer' with
      | None => decoded_segments h buffer' rs'
      | Some s => s :: decoded_segments h buffer' rs'
      end
  end.

(** The buffer after the frames received. *)
Fixpoint buffer_after (buffer : Buffer) (rs : list RecvResult) : Buffer :=
  match rs with
  | [] => buffer
  | RecvFailed :: rs' => buffer_after buffer rs'
  | Received frame :: rs' => buffer_after (recv_into buffer frame) rs'
  end.

Definition sample_other_key : ConnectionID :=
  {| src_ip := 5; dst_ip := 6; src_port := 22; dst_port := 4000 |}.

(* ------------------------------------------------------------------ *)
(** ** Byte order *)

Lemma byte_val_range (b : byte) : 0 <= byte_val b < 256.
Proof.
  unfold byte_val. pose proof (Byte.to_N_bounded b) as Hb.
  split; [apply N2Z.is_nonneg | lia].
Qed.

Lemma load8_range (buffer : Buffer) (off : nat) : 0 <= load8 buffer off < 256.
Proof. apply byte_val_range. Qed.

Lemma swap_bytes (lo hi : Z) :
  0 <= lo < 256 -> 0 <= hi < 256 ->
  ((lo + 256 * hi) mod 256) * 256 + (lo + 256 * hi) / 256 = 256 * lo + hi.
Proof.
  intros Hlo Hhi.
  replace (lo + 256 * hi) with (lo + hi * 256) by lia.
  rewrite Z.mod_add, Z.div_add by lia.
  rewrite Z.mod_small, Z.div_small by lia. lia.
Qed.

(** [ntohs] of a 16-bit field read from the buffer is the number the field
    denotes on the wire, whatever the host. *)
Lemma ntohs_load16 (h : Endianness) (buffer : Buffer) (off : nat) :
  ntohs h (load16 h buffer off) = wire16 buffer off.
Proof.
  destruct h; unfold ntohs, load16, wire16; [| reflexivity].
  apply swap_bytes; apply load8_range.
Qed.

(** A 32-bit field read from the buffer and left as it is holds its four
    octets in network byte order. *)
Lemma load32_inet_addr (h : Endianness) (buffer : Buffer) (off : nat) :
  load32 h buffer off =
  inet_addr h (load8 buffer off) (load8 buffer (off + 1))
              (load8 buffer (off + 2)) (load8 buffer (off + 3)).
Proof. destruct h; reflexivity. Qed.

(* ------------------------------------------------------------------ *)
(** ** The order of the map keys *)

(** Two identifiers neither of which is below the other are equal: the keys
    of the [std::map] are the identifiers themselves. *)
Lemma ConnectionID_lt_equiv (x y : ConnectionID) :
  ConnectionID_lt x y = false -> ConnectionID_lt y x = false -> x = y.
Proof.
  destruct x as [a b c d], y as [a' b' c' d']; unfold ConnectionID_lt; simpl.
  intros H1 H2.
  destruct (Z.eqb_spec a a'), (Z.eqb_spec a' a); try lia; simpl in *;
    [| apply Z.ltb_ge in H1, H2; lia].
  destruct (Z.eqb_spec b b'), (Z.eqb_spec b' b); try lia; simpl in *;
    [| apply Z.ltb_ge in H1, H2; lia].
  destruct (Z.eqb_spec c c'), (Z.eqb_spec c' c); try lia; simpl in *;
    [| apply Z.ltb_ge in H1, H2; lia].
  apply Z.ltb_ge in H1, H2. f_equal; lia.
Qed.

Lemma ConnectionID_lt_irrefl (x : ConnectionID) : ConnectionID_lt x x = false.
Proof.
  unfold ConnectionID_lt. rewrite !Z.eqb_refl. simpl. apply Z.ltb_irrefl.
Qed.

(* ------------------------------------------------------------------ *)
(** ** Canonical identifiers *)

(** The two outcomes of [make_canonical_id]: the first endpoint stays first
    when it is below the second, and goes second otherwise. *)
Lemma make_canonical_id_below (ip1 port1 ip2 port2 : Z) :
  ip1 < ip2 \/ (ip1 = ip2 /\ port1 < port2) ->
  make_canonical_id ip1 port1 ip2 port2 =
  {| src_ip := ip1; src_port := port1; dst_ip := ip2; dst_port := port2 |}.
Proof.
  intros Hlt. unfold make_canonical_id.
  destruct (Z.ltb_spec ip1 ip2); [reflexivity |].
  destruct (Z.gtb_spec ip1 ip2); [lia |].
  destruct (Z.ltb_spec port1 port2); [reflexivity | lia].
Qed.

Lemma make_canonical_id_not_below (ip1 port1 ip2 port2 : Z) :
  ip2 < ip1 \/ (ip1 = ip2 /\ port2 <= port1) ->
  make_canonical_id ip1 port1 ip2 port2 =
  {| src_ip := ip2; src_port := port2; dst_ip := ip1; dst_port := port1 |}.
Proof.
  intros Hge. unfold make_canonical_id.
  destruct (Z.ltb_spec ip1 ip2); [lia |].
  destruct (Z.gtb_spec ip1 ip2); [reflexivity |].
  destruct (Z.ltb_spec port1 port2); [lia | reflexivity].
Qed.

(** C2. For every pair of directional endpoints A = (ipA, portA) and
    B = (ipB, portB), [make_canonical_id] gives the same identifier for (A, B)
    and for (B, A). *)
Theorem make_canonical_id_comm (ipA portA ipB portB : Z) :
  make_canonical_id ipA portA ipB portB = make_canonical_id ipB portB ipA portA.
Proof.
  destruct (Z.lt_trichotomy ipA ipB) as [Hlt | [Heq | Hgt]].
  - rewrite make_canonical_id_below by lia.
    rewrite make_canonical_id_not_below by lia. reflexivity.
  - destruct (Z.lt_trichotomy portA portB) as [Hp | [Hp | Hp]].
    + rewrite make_canonical_id_below by lia.
      rewrite make_canonical_id_not_below by lia. reflexivity.
    + subst. reflexivity.
    + rewrite make_canonical_id_not_below by lia.
      rewrite (make_canonical_id_below ipB) by lia. reflexivity.
  - rewrite make_canonical_id_not_below by lia.
    rewrite (make_canonical_id_below ipB) by lia. reflexivity.
Qed.

(** The smaller endpoint comes first in a canonical identifier. *)
Lemma make_canonical_id_ordered (ip1 port1 ip2 port2 : Z) :
  let id := make_canonical_id ip1 port1 ip2 port2 in
  src_ip id < dst_ip id \/ (src_ip id = dst_ip id /\ src_port id <= dst_port id).
Proof.
  unfold make_canonical_id.
  destruct (Z.ltb_spec ip1 ip2); simpl; [lia |].
  destruct (Z.gtb_spec ip1 ip2); simpl; [lia |].
  destruct (Z.ltb_spec port1 port2); simpl; lia.
Qed.

Lemma segment_key_control (h : Endianness) (forward : bool)
    (ipA portA ipB portB : Z) (tcp : tcphdr) :
  segment_key h (control_segment forward ipA portA ipB portB tcp) =
  make_canonical_id ipA (ntohs h portA) ipB (ntohs h portB).
Proof.
  destruct forward; unfold segment_key, control_segment; simpl;
    [reflexivity |].
  generalize (ntohs h portA) (ntohs h portB). intros pA pB.
  destruct (Z.lt_total ipA ipB) as [Hlt | [Heq | Hgt]];
    destruct (Z.lt_total pA pB) as [Hp | [Hp | Hp]];
    try (subst; reflexivity);
    first [ rewrite (make_canonical_id_below ipA) by lia;
            rewrite make_canonical_id_not_below by lia; reflexivity
          | rewrite (make_canonical_id_below ipB) by lia;
            rewrite make_canonical_id_not_below by lia; reflexivity ].
Qed.

(* ------------------------------------------------------------------ *)
(** ** One call of [process_tcp_packet] *)

Section OneCall.

Variable h : Endianness.
Variable t : Tracker.
Variable key : ConnectionID.
Variable tcp : tcphdr.
Variables sip dip sp dp len : Z.

Local Abbreviation call := (process_tcp_packet h t key tcp sip dip sp dp len).

(** The first test of the function. *)
Lemma process_rst :
  tcp_rst tcp = true ->
  call = (delete key t,
          [mkEvent Rst (default CLOSED (t !! key)) CLOSED
                   sip (ntohs h sp) dip (ntohs h dp) None]).
Proof. intros Hrst. unfold process_tcp_packet. rewrite Hrst. reflexivity. Qed.

(** What a call can do to the tracker: nothing, erase the key, store a live
    state under the key, or store [LAST_ACK] over [CLOSE_WAIT]. *)
Lemma process_tracker_shape :
  fst call = t
  \/ fst call = delete key t
  \/ (exists s, live_state s /\ fst call = <[key := s]> t)
  \/ (t !! key = Some CLOSE_WAIT /\ fst call = <[key := LAST_ACK]> t).
Proof.
  unfold process_tcp_packet, live_state.
  destruct (t !! key) as [[] |] eqn:Hk; simpl;
    destruct (tcp_rst tcp), (tcp_syn tcp), (tcp_ack tcp), (tcp_fin tcp),
             (len >? 0); simpl; eauto 12.
Qed.

(** A line that ends in [CLOSED] comes with the erasure of the key. *)
Lemma process_closed_event (e : Event) :
  e ∈ snd call -> ev_to e = CLOSED -> fst call = delete key t.
Proof.
  unfold process_tcp_packet.
  destruct (t !! key) as [[] |] eqn:Hk; simpl;
    destruct (tcp_rst tcp), (tcp_syn tcp), (tcp_ack tcp), (tcp_fin tcp),
             (len >? 0); simpl; intros He Hto;
    try reflexivity;
    try (apply elem_of_nil in He; contradiction);
    apply list_elem_of_singleton in He; subst e; simpl in Hto; discriminate.
Qed.

(** No line ends in [CLOSE_WAIT]: the second test on [ESTABLISHED] and [fin]
    is never the one taken. *)
Lemma process_no_close_wait_event (e : Event) :
  e ∈ snd call -> ev_to e <> CLOSE_WAIT.
Proof.
  unfold process_tcp_packet.
  destruct (t !! key) as [[] |] eqn:Hk; simpl;
    destruct (tcp_rst tcp), (tcp_syn tcp), (tcp_ack tcp), (tcp_fin tcp),
             (len >? 0); simpl; intros He;
    try (apply elem_of_nil in He; contradiction);
    apply list_elem_of_singleton in He; subst e; simpl; discriminate.
Qed.

(** Entries under other keys are left alone. *)
Lemma process_other_key (k : ConnectionID) :
  k <> key -> fst call !! k = t !! k.
Proof.
  intros Hne.
  destruct process_tracker_shape as [-> | [-> | [(s & _ & ->) | [_ ->]]]].
  - reflexivity.
  - apply lookup_delete_ne; congruence.
  - apply lookup_insert_ne; congruence.
  - apply lookup_insert_ne; congruence.
Qed.

(** A state a call stores that is not live was stored before, or is the
    [LAST_ACK] that follows a stored [CLOSE_WAIT]. *)
Lemma process_lookup (k : ConnectionID) (s : TcpState) :
  fst call !! k = Some s ->
  t !! k = Some s \/ live_state s \/ (s = LAST_ACK /\ t !! key = Some CLOSE_WAIT).
Proof.
  destruct (decide (k = key)) as [-> | Hne].
  - destruct process_tracker_shape as [-> | [-> | [(s' & Hs' & ->) | [Hcw ->]]]].
    + auto.
    + rewrite lookup_delete_eq. discriminate.
    + rewrite lookup_insert_eq. intros [= <-]. auto.
    + rewrite lookup_insert_eq. intros [= <-]. auto.
  - rewrite process_other_key by assumption. auto.
Qed.

Lemma process_live : live_tracker t -> live_tracker (fst call).
Proof.
  intros Hlive k s Hks.
  destruct (process_lookup k s Hks) as [Hold | [Hs | [_ Hcw]]].
  - exact (Hlive k s Hold).
  - exact Hs.
  - specialize (Hlive key CLOSE_WAIT Hcw). unfold live_state in Hlive.
    repeat (destruct Hlive as [Hlive | Hlive]; try discriminate).
Qed.

(** When no row of the table of the specification applies, the function
    reaches its end. *)
Lemma process_unmatched :
  spec_rule_matches (default CLOSED (t !! key)) tcp len = false ->
  call = (t, []).
Proof.
  unfold process_tcp_packet, spec_rule_matches.
  destruct (t !! key) as [[] |] eqn:Hk; simpl;
    destruct (tcp_rst tcp), (tcp_syn tcp), (tcp_ack tcp), (tcp_fin tcp),
             (len >? 0); simpl; intros Hm; try discriminate; reflexivity.
Qed.

(** The first test on [ESTABLISHED] and [fin] takes every such packet that
    carries no payload. *)
Lemma process_established_fin :
  t !! key = Some ESTABLISHED -> tcp_fin tcp = true -> tcp_rst tcp = false ->
  len <= 0 ->
  call = (<[key := FIN_WAIT_1]> t,
          [mkEvent Fin ESTABLISHED FIN_WAIT_1
                   sip (ntohs h sp) dip (ntohs h dp) None]).
Proof.
  intros Hk Hfin Hrst Hlen. unfold process_tcp_packet.
  rewrite Hk, Hfin, Hrst. simpl.
  destruct (Z.gtb_spec len 0); [lia |]. reflexivity.
Qed.

(** The rules a clean open and close go through. *)
Lemma process_syn :
  t !! key = None -> is_SYN tcp = true ->
  call = (<[key := SYN_SENT]> t,
          [mkEvent Syn CLOSED SYN_SENT sip (ntohs h sp) dip (ntohs h dp) None]).
Proof.
  unfold is_SYN, process_tcp_packet. intros ->.
  destruct (tcp_rst tcp), (tcp_syn tcp), (tcp_ack tcp); simpl;
    intros; try discriminate; reflexivity.
Qed.

Lemma process_synack :
  t !! key = Some SYN_SENT -> is_SYNACK tcp = true ->
  call = (<[key := ESTABLISHED]> t,
          [mkEvent SynAck SYN_SENT ESTABLISHED
                   sip (ntohs h sp) dip (ntohs h dp) None]).
Proof.
  unfold is_SYNACK, process_tcp_packet. intros ->.
  destruct (tcp_rst tcp), (tcp_syn tcp), (tcp_ack tcp); simpl;
    intros; try discriminate; reflexivity.
Qed.

Lemma process_ack_established :
  t !! key = Some ESTABLISHED -> is_ACK tcp = true -> len <= 0 ->
  call = (t, []).
Proof.
  unfold is_ACK. intros Hk Hack Hlen. apply process_unmatched.
  rewrite Hk. unfold spec_rule_matches. simpl.
  destruct (Z.gtb_spec len 0); [lia |].
  destruct (tcp_rst tcp), (tcp_syn tcp), (tcp_ack tcp), (tcp_fin tcp);
    simpl in *; try discriminate; reflexivity.
Qed.

Lemma process_ack_fin_wait_1 :
  t !! key = Some FIN_WAIT_1 -> is_ACK tcp = true ->
  call = (<[key := FIN_WAIT_2]> t,
          [mkEvent Ack FIN_WAIT_1 FIN_WAIT_2
                   sip (ntohs h sp) dip (ntohs h dp) None]).
Proof.
  unfold is_ACK, process_tcp_packet. intros ->.
  destruct (tcp_rst tcp), (tcp_syn tcp), (tcp_ack tcp), (tcp_fin tcp); simpl;
    intros; try discriminate; reflexivity.
Qed.

Lemma process_fin_fin_wait_2 :
  t !! key = Some FIN_WAIT_2 -> is_FIN tcp = true ->
  call = (<[key := TIME_WAIT]> t,
          [mkEvent Fin FIN_WAIT_2 TIME_WAIT
                   sip (ntohs h sp) dip (ntohs h dp) None]).
Proof.
  unfold is_FIN, process_tcp_packet. intros ->.
  destruct (tcp_rst tcp), (tcp_syn tcp), (tcp_ack tcp), (tcp_fin tcp); simpl;
    intros; try discriminate; reflexivity.
Qed.

Lemma process_ack_time_wait :
  t !! key = Some TIME_WAIT -> is_ACK tcp = true ->
  call = (delete key t,
          [mkEvent Ack TIME_WAIT CLOSED sip (ntohs h sp) dip (ntohs h dp) None]).
Proof.
  unfold is_ACK, process_tcp_packet. intros ->.
  destruct (tcp_rst tcp), (tcp_syn tcp), (tcp_ack tcp), (tcp_fin tcp); simpl;
    intros; try discriminate; reflexivity.
Qed.

(** The payload length matters through the test [data_len > 0] only. *)
Lemma process_nonpositive_len :
  len <= 0 -> call = process_tcp_packet h t key tcp sip dip sp dp 0.
Proof.
  intros Hlen. unfold process_tcp_packet.
  destruct (Z.gtb_spec len 0); [lia |].
  change (0 >? 0) with false. rewrite !andb_false_r. reflexivity.
Qed.

End OneCall.

(* ------------------------------------------------------------------ *)
(** ** Runs of the loop *)

Lemma track_segment_live (h : Endianness) (t : Tracker) (s : Segment) :
  live_tracker t -> live_tracker (fst (track_segment h t s)).
Proof. apply process_live. Qed.

Lemma loop_body_live (h : Endianness) (st : Buffer * Tracker) (r : RecvResult) :
  live_tracker (snd st) -> live_tracker (tracker_of (loop_body h st r)).
Proof.
  intros Hlive. unfold tracker_of, loop_body.
  destruct r as [| frame]; simpl; [exact Hlive |].
  destruct (decode_frame h (recv_into (fst st) frame)) as [s |]; simpl;
    [| exact Hlive].
  pose proof (track_segment_live h (snd st) s Hlive) as Hs.
  destruct (track_segment h (snd st) s) as [t' evs]. exact Hs.
Qed.

Lemma capture_live (h : Endianness) (rs : list RecvResult) :
  forall st, live_tracker (snd st) -> live_tracker (tracker_of (capture h st rs)).
Proof.
  induction rs as [| r rs IH]; intros st Hlive; simpl; [exact Hlive |].
  pose proof (loop_body_live h st r Hlive) as H1.
  destruct (loop_body h st r) as [st1 evs1].
  specialize (IH st1 H1).
  destruct (capture h st1 rs) as [st2 evs2]. exact IH.
Qed.

Lemma track_all_live (h : Endianness) (ss : list Segment) :
  forall t, live_tracker t -> live_tracker (fst (track_all h t ss)).
Proof.
  induction ss as [| s ss IH]; intros t Hlive; simpl; [exact Hlive |].
  pose proof (track_segment_live h t s Hlive) as H1.
  destruct (track_segment h t s) as [t1 evs1].
  specialize (IH t1 H1).
  destruct (track_all h t1 ss) as [t2 evs2]. exact IH.
Qed.

Lemma live_tracker_empty : live_tracker ∅.
Proof. apply map_Forall_empty. Qed.

Lemma live_state_cases (s : TcpState) :
  live_state s ->
  s <> CLOSED /\ s <> SYN_RECEIVED /\ s <> CLOSE_WAIT /\ s <> LAST_ACK.
Proof.
  unfold live_state. intros H.
  repeat (destruct H as [H | H]; [subst s; repeat split; discriminate |]).
  subst s; repeat split; discriminate.
Qed.

(** From the empty tracker, a run of the loop stores live states only. *)
Lemma capture_from_empty_live (h : Endianness) (buffer : Buffer)
    (rs : list RecvResult) (k : ConnectionID) (s : TcpState) :
  tracker_of (capture h (buffer, ∅) rs) !! k = Some s -> live_state s.
Proof.
  intros Hk.
  exact (capture_live h rs (buffer, ∅) live_tracker_empty k s Hk).
Qed.

Lemma track_all_from_empty_live (h : Endianness) (ss : list Segment)
    (k : ConnectionID) (s : TcpState) :
  fst (track_all h ∅ ss) !! k = Some s -> live_state s.
Proof.
  intros Hk. exact (track_all_live h ss ∅ live_tracker_empty k s Hk).
Qed.

(* ------------------------------------------------------------------ *)
(** ** Reset *)

(** C3. For every tracker, every key and every state stored under the key
    (or none, the implicit CLOSED), a packet whose rst flag is set leaves the
    tracker without an entry for the key and touches no other entry; on a
    key that is already absent the tracker is left as it was, so that a second
    RST changes nothing. Each such packet prints its one RST line. *)
Theorem rst_removes_entry (h : Endianness) (t : Tracker) (key : ConnectionID)
    (tcp tcp' : tcphdr) (sip dip sp dp len sip' dip' sp' dp' len' : Z) :
  tcp_rst tcp = true -> tcp_rst tcp' = true ->
  let r := process_tcp_packet h t key tcp sip dip sp dp len in
  let r' := process_tcp_packet h (fst r) key tcp' sip' dip' sp' dp' len' in
  fst r !! key = None
  /\ (forall k, k <> key -> fst r !! k = t !! k)
  /\ (t !! key = None -> fst r = t)
  /\ fst r' = fst r
  /\ map transition_of (snd r) = [(Rst, default CLOSED (t !! key), CLOSED)]
  /\ map transition_of (snd r') = [(Rst, CLOSED, CLOSED)].
Proof.
  intros Hrst Hrst' r r'. subst r'. subst r.
  rewrite (process_rst h t key tcp sip dip sp dp len Hrst). simpl.
  rewrite (process_rst h _ key tcp' sip' dip' sp' dp' len' Hrst'). simpl.
  rewrite lookup_delete_eq. simpl.
  repeat split.
  - intros k Hne. apply lookup_delete_ne. congruence.
  - apply delete_id.
  - apply delete_id. apply lookup_delete_eq.
Qed.

Lemma rst_removes_entry_witness :
  fst (process_tcp_packet LittleEndian {[sample_key := ESTABLISHED]} sample_key
         hdr_rst 1 2 3 4 0) !! sample_key = None.
Proof.
  apply (rst_removes_entry LittleEndian {[sample_key := ESTABLISHED]} sample_key
           hdr_rst hdr_rst 1 2 3 4 0 1 2 3 4 0); reflexivity.
Defined.

(* ------------------------------------------------------------------ *)
(** ** Unmatched packets *)

(** C5. When no row of the transition table applies to the current state,
    the flags and the payload length, [process_tcp_packet] leaves the tracker
    as it is and prints nothing, and so does a repetition of the packet; a
    plain ACK without payload on an ESTABLISHED flow is such a packet. *)
Theorem unmatched_is_noop (h : Endianness) (t : Tracker) (key : ConnectionID)
    (tcp : tcphdr) (sip dip sp dp len : Z) :
  (spec_rule_matches (default CLOSED (t !! key)) tcp len = false ->
   let r := process_tcp_packet h t key tcp sip dip sp dp len in
   r = (t, [])
   /\ process_tcp_packet h (fst r) key tcp sip dip sp dp len = (t, []))
  /\ (t !! key = Some ESTABLISHED -> is_ACK tcp = true -> len <= 0 ->
      spec_rule_matches (default CLOSED (t !! key)) tcp len = false
      /\ process_tcp_packet h t key tcp sip dip sp dp len = (t, [])).
Proof.
  split.
  - intros Hm r. subst r.
    rewrite (process_unmatched h t key tcp sip dip sp dp len Hm). simpl.
    split; [reflexivity |]. apply process_unmatched. exact Hm.
  - intros Hk Hack Hlen. split.
    + rewrite Hk. unfold spec_rule_matches, is_ACK in *. simpl.
      destruct (Z.gtb_spec len 0); [lia |].
      destruct (tcp_rst tcp), (tcp_syn tcp), (tcp_ack tcp), (tcp_fin tcp);
        simpl in *; try discriminate; reflexivity.
    + apply process_ack_established; assumption.
Qed.

Lemma unmatched_is_noop_witness :
  process_tcp_packet BigEndian {[sample_key := ESTABLISHED]} sample_key
    hdr_ack 1 2 3 4 0 = ({[sample_key := ESTABLISHED]}, []).
Proof.
  apply (proj1 (unmatched_is_noop BigEndian {[sample_key := ESTABLISHED]}
                  sample_key hdr_ack 1 2 3 4 0)).
  reflexivity.
Defined.

(* ------------------------------------------------------------------ *)
(** ** The states that are never stored *)

(** C4. A packet with fin set, rst clear and no payload that arrives on an
    ESTABLISHED flow always moves it to FIN_WAIT_1; no call ever prints the
    line of the ESTABLISHED to CLOSE_WAIT rule or stores CLOSE_WAIT where it
    was not stored; and from the empty tracker no run of the loop, and no
    sequence of tracked segments, leaves CLOSE_WAIT or LAST_ACK under any
    key. *)
Theorem established_fin_is_fin_wait_1 :
  (forall h (t : Tracker) key tcp sip dip sp dp len,
      t !! key = Some ESTABLISHED -> tcp_fin tcp = true ->
      tcp_rst tcp = false -> len <= 0 ->
      let r := process_tcp_packet h t key tcp sip dip sp dp len in
      fst r !! key = Some FIN_WAIT_1
      /\ map transition_of (snd r) = [(Fin, ESTABLISHED, FIN_WAIT_1)])
  /\ (forall h (t : Tracker) key tcp sip dip sp dp len,
         let r := process_tcp_packet h t key tcp sip dip sp dp len in
         (forall e, e ∈ snd r -> ev_to e <> CLOSE_WAIT)
         /\ (forall k, fst r !! k = Some CLOSE_WAIT -> t !! k = Some CLOSE_WAIT))
  /\ (forall h buffer rs k,
         tracker_of (capture h (buffer, ∅) rs) !! k <> Some CLOSE_WAIT
         /\ tracker_of (capture h (buffer, ∅) rs) !! k <> Some LAST_ACK)
  /\ (forall h ss k,
         fst (track_all h ∅ ss) !! k <> Some CLOSE_WAIT
         /\ fst (track_all h ∅ ss) !! k <> Some LAST_ACK).
Proof.
  split; [| split; [| split]].
  - intros h t key tcp sip dip sp dp len Hk Hfin Hrst Hlen r. subst r.
    rewrite (process_established_fin h t key tcp sip dip sp dp len Hk Hfin Hrst Hlen).
    simpl. rewrite lookup_insert_eq. split; reflexivity.
  - intros h t key tcp sip dip sp dp len r. subst r. split.
    + intros e He. exact (process_no_close_wait_event h t key tcp sip dip sp dp len e He).
    + intros k Hk.
      destruct (process_lookup h t key tcp sip dip sp dp len k CLOSE_WAIT Hk)
        as [Hold | [Hlive | [Hne _]]].
      * exact Hold.
      * apply live_state_cases in Hlive. tauto.
      * discriminate.
  - intros h buffer rs k. split; intros Hk;
      apply capture_from_empty_live, live_state_cases in Hk; tauto.
  - intros h ss k. split; intros Hk;
      apply track_all_from_empty_live, live_state_cases in Hk; tauto.
Qed.

Lemma established_fin_is_fin_wait_1_witness :
  fst (process_tcp_packet LittleEndian {[sample_key := ESTABLISHED]} sample_key
         hdr_fin 1 2 3 4 0) !! sample_key = Some FIN_WAIT_1.
Proof.
  apply (proj1 established_fin_is_fin_wait_1 LittleEndian
           {[sample_key := ESTABLISHED]} sample_key hdr_fin 1 2 3 4 0);
    [reflexivity | reflexivity | reflexivity | lia].
Defined.

(** C10. From the empty tracker no run of the loop, and no sequence of
    tracked segments, leaves CLOSED under any key: every call that prints a
    line ending in CLOSED erases the key, and no call stores CLOSED where it
    was not stored. *)
Theorem no_entry_is_closed :
  (forall h buffer rs k,
      tracker_of (capture h (buffer, ∅) rs) !! k <> Some CLOSED)
  /\ (forall h ss k, fst (track_all h ∅ ss) !! k <> Some CLOSED)
  /\ (forall h (t : Tracker) key tcp sip dip sp dp len e,
         let r := process_tcp_packet h t key tcp sip dip sp dp len in
         e ∈ snd r -> ev_to e = CLOSED ->
         fst r = delete key t /\ fst r !! key = None)
  /\ (forall h (t : Tracker) key tcp sip dip sp dp len k,
         let r := process_tcp_packet h t key tcp sip dip sp dp len in
         fst r !! k = Some CLOSED -> t !! k = Some CLOSED).
Proof.
  split; [| split; [| split]].
  - intros h buffer rs k Hk.
    apply capture_from_empty_live, live_state_cases in Hk. tauto.
  - intros h ss k Hk.
    apply track_all_from_empty_live, live_state_cases in Hk. tauto.
  - intros h t key tcp sip dip sp dp len e r He Hto. subst r.
    rewrite (process_closed_event h t key tcp sip dip sp dp len e He Hto).
    split; [reflexivity | apply lookup_delete_eq].
  - intros h t key tcp sip dip sp dp len k r Hk. subst r.
    destruct (process_lookup h t key tcp sip dip sp dp len k CLOSED Hk)
      as [Hold | [Hlive | [Hne _]]].
    + exact Hold.
    + apply live_state_cases in Hlive. tauto.
    + discriminate.
Qed.

Lemma no_entry_is_closed_witness :
  fst (process_tcp_packet LittleEndian {[sample_key := TIME_WAIT]} sample_key
         hdr_ack 1 2 3 4 0) !! sample_key = None.
Proof.
  apply (proj1 (proj2 (proj2 no_entry_is_closed)) LittleEndian
           {[sample_key := TIME_WAIT]} sample_key hdr_ack 1 2 3 4 0
           (mkEvent Ack TIME_WAIT CLOSED 1 (ntohs LittleEndian 3) 2
                    (ntohs LittleEndian 4) None)).
  - vm_compute. apply list_elem_of_here.
  - reflexivity.
Defined.

(* ------------------------------------------------------------------ *)
(** ** A clean open and close *)

Lemma track_control (h : Endianness) (t : Tracker) (forward : bool)
    (ipA portA ipB portB : Z) (tcp : tcphdr) :
  let cs := control_segment forward ipA portA ipB portB tcp in
  track_segment h t cs =
  process_tcp_packet h t
    (make_canonical_id ipA (ntohs h portA) ipB (ntohs h portB)) tcp
    (seg_src_ip cs) (seg_dst_ip cs) (seg_src_port cs) (seg_dst_port cs) 0.
Proof.
  intros cs. unfold track_segment. subst cs.
  rewrite segment_key_control. destruct forward; reflexivity.
Qed.

(** C1, as the code has it. From the empty tracker, the seven control
    packets SYN, SYN/ACK, ACK, FIN, ACK, FIN, ACK of one flow (rst clear, no
    payload, each in either direction) leave the tracker empty and print
    exactly six lines, none of them a data line, in the order Syn, SynAck,
    Fin, Ack, Fin, Ack: the third packet, a plain ACK on an ESTABLISHED flow,
    prints nothing. *)
Theorem lifecycle_six_events (h : Endianness) (ipA portA ipB portB : Z)
    (d1 d2 d3 d4 d5 d6 d7 : bool) (t1 t2 t3 t4 t5 t6 t7 : tcphdr) :
  is_SYN t1 = true -> is_SYNACK t2 = true -> is_ACK t3 = true ->
  is_FIN t4 = true -> is_ACK t5 = true -> is_FIN t6 = true ->
  is_ACK t7 = true ->
  let seg d tcp := control_segment d ipA portA ipB portB tcp in
  let r := track_all h ∅ [seg d1 t1; seg d2 t2; seg d3 t3; seg d4 t4;
                          seg d5 t5; seg d6 t6; seg d7 t7] in
  fst r = ∅
  /\ map transition_of (snd r) =
     [(Syn, CLOSED, SYN_SENT); (SynAck, SYN_SENT, ESTABLISHED);
      (Fin, ESTABLISHED, FIN_WAIT_1); (Ack, FIN_WAIT_1, FIN_WAIT_2);
      (Fin, FIN_WAIT_2, TIME_WAIT); (Ack, TIME_WAIT, CLOSED)]
  /\ map ev_reason (snd r) = [Syn; SynAck; Fin; Ack; Fin; Ack]
  /\ length (snd r) = 6%nat.
Proof.
  intros H1 H2 H3 H4 H5 H6 H7 seg r. subst r seg.
  assert (tcp_fin t4 = true /\ tcp_rst t4 = false) as [H4f H4r].
  { unfold is_FIN in H4. destruct (tcp_fin t4), (tcp_rst t4); auto; discriminate. }
  set (k := make_canonical_id ipA (ntohs h portA) ipB (ntohs h portB)).
  cbn [track_all].
  rewrite track_control. fold k.
  rewrite (process_syn h ∅ k t1) by (apply lookup_empty || exact H1).
  cbv iota beta. rewrite track_control. fold k.
  rewrite (process_synack h _ k t2) by (apply lookup_insert_eq || exact H2).
  cbv iota beta. rewrite insert_insert_eq, track_control. fold k.
  rewrite (process_ack_established h _ k t3)
    by (apply lookup_insert_eq || exact H3 || lia).
  cbv iota beta. rewrite track_control. fold k.
  rewrite (process_established_fin h _ k t4)
    by (apply lookup_insert_eq || assumption || lia).
  cbv iota beta. rewrite insert_insert_eq, track_control. fold k.
  rewrite (process_ack_fin_wait_1 h _ k t5) by (apply lookup_insert_eq || exact H5).
  cbv iota beta. rewrite insert_insert_eq, track_control. fold k.
  rewrite (process_fin_fin_wait_2 h _ k t6) by (apply lookup_insert_eq || exact H6).
  cbv iota beta. rewrite insert_insert_eq, track_control. fold k.
  rewrite (process_ack_time_wait h _ k t7) by (apply lookup_insert_eq || exact H7).
  cbv iota beta. rewrite delete_insert_eq, delete_empty.
  repeat split.
Qed.

Lemma lifecycle_six_events_witness :
  fst (track_all LittleEndian ∅
         [control_segment true 1677830336 36895 16777226 20480 hdr_syn;
          control_segment false 1677830336 36895 16777226 20480 hdr_synack;
          control_segment true 1677830336 36895 16777226 20480 hdr_ack;
          control_segment true 1677830336 36895 16777226 20480 hdr_fin;
          control_segment false 1677830336 36895 16777226 20480 hdr_ack;
          control_segment false 1677830336 36895 16777226 20480 hdr_fin;
          control_segment true 1677830336 36895 16777226 20480 hdr_ack]) = ∅.
Proof.
  apply (lifecycle_six_events LittleEndian 1677830336 36895 16777226 20480
           true false true true false false true
           hdr_syn hdr_synack hdr_ack hdr_fin hdr_ack hdr_fin hdr_ack);
    reflexivity.
Defined.

(** C1, as stated, fails: the seven frames of a clean open and close between
    192.168.1.100:8080 and 10.0.0.1:80 leave the tracker empty, but the lines
    printed are Syn, SynAck, Fin, Ack, Fin, Ack, not the seven of the claim. *)
Lemma lifecycle_not_seven_events :
  let r := capture LittleEndian (zero_buffer, ∅) lifecycle_frames in
  tracker_of r = ∅
  /\ map ev_reason (events_of r) = [Syn; SynAck; Fin; Ack; Fin; Ack]
  /\ map ev_reason (events_of r) <> [Syn; SynAck; Ack; Fin; Ack; Fin; Ack].
Proof.
  vm_compute. repeat split. discriminate.
Qed.

(* ------------------------------------------------------------------ *)
(** ** The scenario of the specification *)

(** C9. The frame 192.168.1.100:8080 to 10.0.0.1:80 with SYN alone, then the
    frame 10.0.0.1:80 to 192.168.1.100:8080 with SYN and ACK: on either kind
    of host, and whatever the buffer held before, both decode to segments
    whose key is 10.0.0.1:80, 192.168.1.100:8080, and after the two frames the
    tracker maps that key to ESTABLISHED. *)
Theorem syn_synack_scenario (h : Endianness) (buffer : Buffer) :
  let b1 := recv_into buffer frame_syn in
  let b2 := recv_into b1 frame_synack in
  let flags s := (tcp_syn (seg_tcp s), tcp_ack (seg_tcp s), tcp_fin (seg_tcp s),
                  tcp_rst (seg_tcp s), tcp_psh (seg_tcp s), tcp_urg (seg_tcp s)) in
  (flags <$> decode_frame h b1) = Some (true, false, false, false, false, false)
  /\ (flags <$> decode_frame h b2) = Some (true, true, false, false, false, false)
  /\ (segment_key h <$> decode_frame h b1) = Some (flow_key h)
  /\ (segment_key h <$> decode_frame h b2) = Some (flow_key h)
  /\ tracker_of (capture h (buffer, ∅) [Received frame_syn; Received frame_synack])
     !! flow_key h = Some ESTABLISHED.
Proof.
  destruct h; vm_compute; repeat split.
Qed.

(* ------------------------------------------------------------------ *)
(** ** What the loop body reads from a frame *)

(** On a big-endian host network byte order is host byte order; on a
    little-endian host the octets are in the opposite order. *)
Lemma inet_addr_big_endian (a b c d : Z) :
  inet_addr BigEndian a b c d = host_order_addr a b c d.
Proof. reflexivity. Qed.

Lemma inet_addr_little_endian (a b c d : Z) :
  inet_addr LittleEndian a b c d = host_order_addr d c b a.
Proof. unfold inet_addr, host_order_addr. lia. Qed.

(** C8, as the code has it. For every frame the loop body decodes, the two
    addresses are the 32-bit fields of the IP header as they are read, that
    is in network byte order (no [ntohl] is applied); the two ports are the
    16-bit fields as they are read, and [ntohs] of them, which is what the
    flow key holds, are the port numbers in host byte order; the payload
    length is the total length of the IP header minus the two header
    lengths. *)
Theorem decode_frame_fields (h : Endianness) (buffer : Buffer) (s : Segment) :
  decode_frame h buffer = Some s ->
  seg_src_ip s = inet_addr h (load8 buffer 26) (load8 buffer 27)
                             (load8 buffer 28) (load8 buffer 29)
  /\ seg_dst_ip s = inet_addr h (load8 buffer 30) (load8 buffer 31)
                                (load8 buffer 32) (load8 buffer 33)
  /\ ntohs h (seg_src_port s) = wire16 buffer (tcp_offset buffer)
  /\ ntohs h (seg_dst_port s) = wire16 buffer (tcp_offset buffer + 2)
  /\ segment_key h s =
     make_canonical_id (seg_src_ip s) (wire16 buffer (tcp_offset buffer))
                       (seg_dst_ip s) (wire16 buffer (tcp_offset buffer + 2))
  /\ seg_data_len s =
     wire16 buffer 16 - Z.land (load8 buffer 14) 15 * 4
     - Z.shiftr (load8 buffer (tcp_offset buffer + 12)) 4 * 4.
Proof.
  unfold decode_frame.
  destruct (negb (ntohs h (load16 h buffer 12) =? 2048)); [discriminate |].
  destruct (negb (load8 buffer (ETH_HLEN + 9) =? 6)); [discriminate |].
  intros [= <-]. unfold segment_key. cbn [seg_src_ip seg_dst_ip seg_src_port
    seg_dst_port seg_data_len read_tcphdr tcp_source tcp_dest].
  rewrite !ntohs_load16.
  repeat split; try apply load32_inet_addr.
  unfold ip_total_len, tcp_header_len, ip_header_len, read_tcphdr.
  cbn [tcp_doff]. rewrite ntohs_load16. reflexivity.
Qed.

Lemma decode_frame_fields_witness :
  exists s, decode_frame LittleEndian (recv_into zero_buffer frame_syn) = Some s
            /\ seg_src_ip s = inet_addr LittleEndian 192 168 1 100.
Proof.
  eexists. split; [reflexivity |].
  apply (decode_frame_fields LittleEndian (recv_into zero_buffer frame_syn)).
  reflexivity.
Defined.

(** C8, as stated, fails on a little-endian host: [frame_syn], sent from
    192.168.1.100 to 10.0.0.1, is decoded, and neither address comes out as
    the host-order number of the address. *)
Lemma decode_frame_not_host_order :
  exists s, decode_frame LittleEndian (recv_into zero_buffer frame_syn) = Some s
            /\ seg_src_ip s = 1677830336
            /\ host_order_addr 192 168 1 100 = 3232235876
            /\ seg_src_ip s <> host_order_addr 192 168 1 100
            /\ seg_dst_ip s <> host_order_addr 10 0 0 1.
Proof.
  eexists. split; [reflexivity |]. vm_compute. repeat split; discriminate.
Qed.

(* ------------------------------------------------------------------ *)
(** ** Frames with inconsistent lengths *)

(** A data line is printed for a positive payload length only. *)
Lemma process_data_event (h : Endianness) (t : Tracker) (key : ConnectionID)
    (tcp : tcphdr) (sip dip sp dp len : Z) (e : Event) :
  e ∈ snd (process_tcp_packet h t key tcp sip dip sp dp len) ->
  ev_reason e = Data -> 0 < len.
Proof.
  unfold process_tcp_packet.
  destruct (t !! key) as [[] |] eqn:Hk; simpl;
    destruct (tcp_rst tcp), (tcp_syn tcp), (tcp_ack tcp), (tcp_fin tcp),
             (Z.gtb_spec len 0); simpl; intros He Hr;
    try assumption;
    try (apply elem_of_nil in He; contradiction);
    apply list_elem_of_singleton in He; subst e; simpl in Hr; discriminate.
Qed.

Lemma decode_frame_some (h : Endianness) (buffer : Buffer) :
  ntohs h (load16 h buffer 12) = 0x0800 -> load8 buffer 23 = 6 ->
  decode_frame h buffer =
  Some {| seg_src_ip := load32 h buffer 26; seg_dst_ip := load32 h buffer 30;
          seg_src_port := tcp_source (read_tcphdr h buffer (tcp_offset buffer));
          seg_dst_port := tcp_dest (read_tcphdr h buffer (tcp_offset buffer));
          seg_tcp := read_tcphdr h buffer (tcp_offset buffer);
          seg_data_len := ip_total_len h buffer - ip_header_len buffer
                          - tcp_header_len h buffer |}.
Proof.
  intros Hproto Htcp. unfold decode_frame.
  rewrite Hproto. change (ETH_HLEN + 9)%nat with 23%nat. rewrite Htcp.
  reflexivity.
Qed.

(** C7, as the code has it. A frame that is IPv4 and TCP and whose computed
    payload length is negative is decoded like any other, with that negative
    length, and the state machine processes it exactly as it processes the
    same segment with payload length 0; it prints no data line. *)
Theorem negative_payload_is_tracked (h : Endianness) (buffer : Buffer)
    (t : Tracker) :
  ntohs h (load16 h buffer 12) = 0x0800 -> load8 buffer 23 = 6 ->
  ip_total_len h buffer - ip_header_len buffer - tcp_header_len h buffer < 0 ->
  exists s,
    decode_frame h buffer = Some s
    /\ seg_data_len s =
       ip_total_len h buffer - ip_header_len buffer - tcp_header_len h buffer
    /\ track_segment h t s = track_segment h t (with_data_len s 0)
    /\ (forall e, e ∈ snd (track_segment h t s) -> ev_reason e <> Data).
Proof.
  intros Hproto Htcp Hneg. eexists.
  split; [apply decode_frame_some; assumption |].
  split; [reflexivity |]. split.
  - unfold track_segment, with_data_len, segment_key. simpl.
    apply process_nonpositive_len. lia.
  - intros e He Hdata. unfold track_segment in He. simpl in He.
    apply process_data_event in He; [lia | exact Hdata].
Qed.

Lemma negative_payload_is_tracked_witness :
  exists s,
    decode_frame BigEndian (recv_into zero_buffer frame_syn_short_total) = Some s
    /\ seg_data_len s = -20.
Proof.
  destruct (negative_payload_is_tracked BigEndian
              (recv_into zero_buffer frame_syn_short_total) ∅)
    as (s & Hs & Hlen & _); [reflexivity | reflexivity | vm_compute; reflexivity |].
  exists s. split; [exact Hs |]. rewrite Hlen. vm_compute. reflexivity.
Defined.

(** C7, as stated, fails: [frame_syn_short_total] declares a total length of
    20 under 40 bytes of headers, a payload length of -20; it is decoded, the
    state machine runs, an entry is stored and a line is printed. *)
Lemma negative_payload_not_rejected :
  let buffer := recv_into zero_buffer frame_syn_short_total in
  let r := loop_body LittleEndian (zero_buffer, ∅)
                     (Received frame_syn_short_total) in
  ip_total_len LittleEndian buffer - ip_header_len buffer
  - tcp_header_len LittleEndian buffer = -20
  /\ (seg_data_len <$> decode_frame LittleEndian buffer) = Some (-20)
  /\ tracker_of r !! flow_key LittleEndian = Some SYN_SENT
  /\ map transition_of (events_of r) = [(Syn, CLOSED, SYN_SENT)].
Proof.
  vm_compute. repeat split.
Qed.

(* ------------------------------------------------------------------ *)
(** ** Frames shorter than their headers *)

Lemma recv_into_prefix (buffer buffer' : Buffer) (frame rest : list byte) (i : nat) :
  (i < length frame)%nat ->
  recv_into buffer frame i = recv_into buffer' (frame ++ rest) i.
Proof.
  intros Hi. unfold recv_into.
  rewrite lookup_app_l by exact Hi.
  destruct (lookup_lt_is_Some_2 frame i Hi) as [b ->]. reflexivity.
Qed.

Section Agree.

Variables b1 b2 : Buffer.
Variable n : nat.
Hypothesis agree : forall i, (i < n)%nat -> b1 i = b2 i.

Lemma load8_agree (off : nat) : (off < n)%nat -> load8 b1 off = load8 b2 off.
Proof. intros Hoff. unfold load8. rewrite agree by exact Hoff. reflexivity. Qed.

Lemma load16_agree (h : Endianness) (off : nat) :
  (off + 1 < n)%nat -> load16 h b1 off = load16 h b2 off.
Proof.
  intros Hoff. unfold load16.
  rewrite (load8_agree off), (load8_agree (off + 1)) by lia. reflexivity.
Qed.

Lemma load32_agree (h : Endianness) (off : nat) :
  (off + 3 < n)%nat -> load32 h b1 off = load32 h b2 off.
Proof.
  intros Hoff. unfold load32.
  rewrite (load8_agree off), (load8_agree (off + 1)),
    (load8_agree (off + 2)), (load8_agree (off + 3)) by lia.
  reflexivity.
Qed.

Lemma read_tcphdr_agree (h : Endianness) (off : nat) :
  (off + 13 < n)%nat -> read_tcphdr h b1 off = read_tcphdr h b2 off.
Proof.
  intros Hoff. unfold read_tcphdr.
  rewrite (load16_agree h off), (load16_agree h (off + 2)),
    (load8_agree (off + 12)), (load8_agree (off + 13)) by lia.
  reflexivity.
Qed.

(** The loop body decodes two buffers alike when they agree on the bytes it
    looks at. *)
Lemma decode_frame_agree (h : Endianness) :
  (decode_extent b1 <= n)%nat -> decode_frame h b1 = decode_frame h b2.
Proof.
  unfold decode_extent. intros Hn.
  assert (ip_header_len b1 = ip_header_len b2) as Hihl.
  { unfold ip_header_len. rewrite (load8_agree ETH_HLEN); [reflexivity |].
    unfold ETH_HLEN. lia. }
  assert (tcp_offset b1 = tcp_offset b2) as Hoff.
  { unfold tcp_offset. rewrite Hihl. reflexivity. }
  unfold decode_frame, ip_total_len, tcp_header_len.
  rewrite <- Hoff, <- Hihl.
  rewrite (read_tcphdr_agree h (tcp_offset b1)) by lia.
  rewrite (load16_agree h 12), (load8_agree (ETH_HLEN + 9)),
    (load32_agree h (ETH_HLEN + 12)), (load32_agree h (ETH_HLEN + 16)),
    (load16_agree h (ETH_HLEN + 2)) by (unfold ETH_HLEN; lia).
  reflexivity.
Qed.

End Agree.

(** C6, as the code has it. No length is checked and no frame is rejected
    as truncated. A received frame that holds the bytes the loop body looks
    at (the first 34, and the TCP header up to its flags byte), however much
    of the rest of its headers is missing, is processed exactly as any longer
    frame that starts with the same bytes: same tracker, same lines. The
    tracker is left as it was when the frame is skipped as not IPv4 or not
    TCP. *)
Theorem truncated_frame_is_tracked (h : Endianness) (buffer buffer' : Buffer)
    (t : Tracker) (frame rest : list byte) :
  let r := loop_body h (buffer, t) (Received frame) in
  let r' := loop_body h (buffer', t) (Received (frame ++ rest)) in
  ((decode_extent (recv_into buffer frame) <= length frame)%nat ->
   tracker_of r = tracker_of r' /\ events_of r = events_of r')
  /\ (decode_frame h (recv_into buffer frame) = None ->
      tracker_of r = t /\ events_of r = []).
Proof.
  intros r r'. subst r r'. unfold loop_body, tracker_of, events_of. simpl.
  split.
  - intros Hlen.
    rewrite (decode_frame_agree (recv_into buffer frame)
               (recv_into buffer' (frame ++ rest)) (length frame)).
    + destruct (decode_frame h (recv_into buffer' (frame ++ rest))) as [s |];
        simpl; [| split; reflexivity].
      destruct (track_segment h t s) as [t' evs]. split; reflexivity.
    + intros i Hi. apply recv_into_prefix. exact Hi.
    + exact Hlen.
  - intros ->. split; reflexivity.
Qed.

Lemma truncated_frame_is_tracked_witness :
  tracker_of (loop_body LittleEndian (zero_buffer, ∅) (Received frame_syn_truncated))
  = tracker_of (loop_body LittleEndian (zero_buffer, ∅)
                  (Received (frame_syn_truncated ++ drop 50 frame_syn))).
Proof.
  apply (proj1 (truncated_frame_is_tracked LittleEndian zero_buffer zero_buffer ∅
                  frame_syn_truncated (drop 50 frame_syn))).
  vm_compute. lia.
Defined.

(** C6, as stated, fails: [frame_syn_truncated] holds 50 bytes and declares
    54 bytes of headers; it is decoded, and the tracker, empty before, holds
    an entry after. *)
Lemma truncated_frame_not_rejected :
  let buffer := recv_into zero_buffer frame_syn_truncated in
  let r := loop_body LittleEndian (zero_buffer, ∅) (Received frame_syn_truncated) in
  Z.of_nat (length frame_syn_truncated)
  < Z.of_nat ETH_HLEN + ip_header_len buffer + tcp_header_len LittleEndian buffer
  /\ is_Some (decode_frame LittleEndian buffer)
  /\ tracker_of r !! flow_key LittleEndian = Some SYN_SENT
  /\ tracker_of r <> ∅
  /\ map transition_of (events_of r) = [(Syn, CLOSED, SYN_SENT)].
Proof.
  assert (tracker_of (loop_body LittleEndian (zero_buffer, ∅)
                        (Received frame_syn_truncated))
          !! flow_key LittleEndian = Some SYN_SENT) as Hk
    by (vm_compute; reflexivity).
  cbv zeta. split; [vm_compute; reflexivity |].
  split; [vm_compute; eexists; reflexivity |].
  split; [exact Hk |].
  split; [| vm_compute; reflexivity].
  intros Hempty. rewrite Hempty, lookup_empty in Hk. discriminate.
Qed.

(* ------------------------------------------------------------------ *)
(** ** More on the order of the keys and on canonical identifiers *)

Ltac order_cases :=
  repeat match goal with
         | H : context [?a =? ?b] |- _ => destruct (Z.eqb_spec a b); simpl in H
         | H : context [?a <? ?b] |- _ => destruct (Z.ltb_spec a b); simpl in H
         | |- context [?a =? ?b] => destruct (Z.eqb_spec a b); simpl
         | |- context [?a <? ?b] => destruct (Z.ltb_spec a b); simpl
         end;
  try discriminate; try reflexivity; try lia.

(** X1. [operator<] of [ConnectionID] is a strict total order: no identifier
    is below itself, the relation is transitive, never holds both ways, and
    of two different identifiers one is below the other. *)
Theorem ConnectionID_lt_strict_total_order :
  (forall x, ConnectionID_lt x x = false)
  /\ (forall x y z, ConnectionID_lt x y = true -> ConnectionID_lt y z = true ->
                    ConnectionID_lt x z = true)
  /\ (forall x y, ConnectionID_lt x y = true -> ConnectionID_lt y x = false)
  /\ (forall x y, x <> y -> ConnectionID_lt x y = true \/ ConnectionID_lt y x = true).
Proof.
  split; [| split; [| split]].
  - intros [a b c d]. unfold ConnectionID_lt; simpl. order_cases.
  - intros [a b c d] [a' b' c' d'] [a'' b'' c'' d''].
    unfold ConnectionID_lt; simpl. intros H1 H2. order_cases.
  - intros [a b c d] [a' b' c' d']. unfold ConnectionID_lt; simpl.
    intros H1. order_cases.
  - intros x y Hne.
    destruct (ConnectionID_lt x y) eqn:Hxy; [left; reflexivity |].
    destruct (ConnectionID_lt y x) eqn:Hyx; [right; reflexivity |].
    contradiction Hne. apply ConnectionID_lt_equiv; assumption.
Qed.

Lemma ConnectionID_lt_strict_total_order_witness :
  ConnectionID_lt sample_key sample_other_key = true.
Proof.
  apply (proj1 (proj2 ConnectionID_lt_strict_total_order) sample_key
           {| src_ip := 3; dst_ip := 0; src_port := 0; dst_port := 0 |}
           sample_other_key); reflexivity.
Defined.

(** X2. The identifier [make_canonical_id] builds holds the two endpoints it
    was given, unchanged, in one of the two orders, and the endpoint it puts
    first is not above the other (address first, port second). *)
Theorem make_canonical_id_canonical (ip1 port1 ip2 port2 : Z) :
  let id := make_canonical_id ip1 port1 ip2 port2 in
  canonical id
  /\ (id = {| src_ip := ip1; src_port := port1; dst_ip := ip2; dst_port := port2 |}
      \/ id = {| src_ip := ip2; src_port := port2; dst_ip := ip1; dst_port := port1 |}).
Proof.
  intros id. subst id. split; [apply make_canonical_id_ordered |].
  destruct (Z.lt_total ip1 ip2) as [Hlt | [Heq | Hgt]].
  - left. apply make_canonical_id_below. lia.
  - destruct (Z.lt_ge_cases port1 port2).
    + left. apply make_canonical_id_below. lia.
    + right. apply make_canonical_id_not_below. lia.
  - right. apply make_canonical_id_not_below. lia.
Qed.

(** Two pairs of endpoints with the same identifier are the same pair, in
    the same order or swapped. *)
Lemma canonical_id_inj (ip1 port1 ip2 port2 ip3 port3 ip4 port4 : Z) :
  make_canonical_id ip1 port1 ip2 port2 = make_canonical_id ip3 port3 ip4 port4 ->
  (ip1 = ip3 /\ port1 = port3 /\ ip2 = ip4 /\ port2 = port4)
  \/ (ip1 = ip4 /\ port1 = port4 /\ ip2 = ip3 /\ port2 = port3).
Proof.
  unfold make_canonical_id.
  destruct (Z.ltb_spec ip1 ip2), (Z.gtb_spec ip1 ip2), (Z.ltb_spec port1 port2),
    (Z.ltb_spec ip3 ip4), (Z.gtb_spec ip3 ip4), (Z.ltb_spec port3 port4);
    intros [= -> -> -> ->]; auto; lia.
Qed.

Lemma canonical_id_same_pair (ip1 port1 ip2 port2 ip3 port3 ip4 port4 : Z) :
  (ip1 = ip3 /\ port1 = port3 /\ ip2 = ip4 /\ port2 = port4)
  \/ (ip1 = ip4 /\ port1 = port4 /\ ip2 = ip3 /\ port2 = port3) ->
  make_canonical_id ip1 port1 ip2 port2 = make_canonical_id ip3 port3 ip4 port4.
Proof.
  intros [(-> & -> & -> & ->) | (-> & -> & -> & ->)]; [reflexivity |].
  unfold make_canonical_id.
  destruct (Z.ltb_spec ip4 ip3), (Z.gtb_spec ip4 ip3), (Z.ltb_spec port4 port3),
    (Z.ltb_spec ip3 ip4), (Z.gtb_spec ip3 ip4), (Z.ltb_spec port3 port4);
    try reflexivity; try lia.
  f_equal; lia.
Qed.

(** X3. Two pairs of endpoints get the same identifier exactly when they are
    the same pair, in the same order or swapped: two different flows never
    share a key. *)
Theorem make_canonical_id_same_flow (ip1 port1 ip2 port2 ip3 port3 ip4 port4 : Z) :
  make_canonical_id ip1 port1 ip2 port2 = make_canonical_id ip3 port3 ip4 port4
  <-> ((ip1 = ip3 /\ port1 = port3 /\ ip2 = ip4 /\ port2 = port4)
       \/ (ip1 = ip4 /\ port1 = port4 /\ ip2 = ip3 /\ port2 = port3)).
Proof.
  split; [apply canonical_id_inj | apply canonical_id_same_pair].
Qed.

Lemma make_canonical_id_same_flow_witness :
  make_canonical_id 7 80 9 8080 = make_canonical_id 9 8080 7 80.
Proof. apply make_canonical_id_same_flow. right. repeat split. Defined.

(** X4. The identifiers [make_canonical_id] leaves unchanged when it is given
    their own two endpoints are exactly the canonical ones; given the two
    endpoints swapped, it restores a canonical identifier. *)
Theorem make_canonical_id_fixed_points (id : ConnectionID) :
  (make_canonical_id (src_ip id) (src_port id) (dst_ip id) (dst_port id) = id
   <-> canonical id)
  /\ (canonical id ->
      make_canonical_id (dst_ip id) (dst_port id) (src_ip id) (src_port id) = id).
Proof.
  destruct id as [a b c d]. unfold canonical. simpl. split; [split |].
  - intros Hfix.
    pose proof (make_canonical_id_ordered a c b d) as Hord.
    rewrite Hfix in Hord. exact Hord.
  - intros [Hlt | [Heq Hle]].
    + apply make_canonical_id_below. lia.
    + destruct (Z.eq_dec c d) as [-> | Hne].
      * subst. unfold make_canonical_id.
        rewrite !Z.ltb_irrefl. destruct (Z.gtb_spec b b); [lia | reflexivity].
      * apply make_canonical_id_below. lia.
  - intros [Hlt | [Heq Hle]].
    + apply make_canonical_id_not_below. lia.
    + apply make_canonical_id_not_below. lia.
Qed.

Lemma make_canonical_id_fixed_points_witness :
  make_canonical_id (dst_ip sample_key) (dst_port sample_key)
                    (src_ip sample_key) (src_port sample_key) = sample_key.
Proof.
  apply (proj2 (make_canonical_id_fixed_points sample_key)).
  left. reflexivity.
Defined.

(* ------------------------------------------------------------------ *)
(** ** More on one call of [process_tcp_packet] *)

Ltac process_cases t key tcp len :=
  unfold process_tcp_packet;
  destruct (t !! key) as [[] |] eqn:?; simpl;
  destruct (tcp_rst tcp), (tcp_syn tcp), (tcp_ack tcp), (tcp_fin tcp),
           (Z.gtb_spec len 0); simpl.

Lemma process_at_most_one_event (h : Endianness) (t : Tracker)
    (key : ConnectionID) (tcp : tcphdr) (sip dip sp dp len : Z) :
  (length (snd (process_tcp_packet h t key tcp sip dip sp dp len)) <= 1)%nat.
Proof.
  unfold process_tcp_packet.
  repeat match goal with
         | |- context [if ?b then _ else _] => destruct b
         end; simpl; lia.
Qed.

(** The endpoints of a line are those the call was given. *)
Lemma process_event_endpoints (h : Endianness) (t : Tracker)
    (key : ConnectionID) (tcp : tcphdr) (sip dip sp dp len : Z) (e : Event) :
  e ∈ snd (process_tcp_packet h t key tcp sip dip sp dp len) ->
  ev_src_ip e = sip /\ ev_src_port e = ntohs h sp
  /\ ev_dst_ip e = dip /\ ev_dst_port e = ntohs h dp.
Proof.
  unfold process_tcp_packet.
  repeat match goal with
         | |- context [if ?b then _ else _] => destruct b
         end; simpl; intros He;
    try (apply elem_of_nil in He; contradiction);
    apply list_elem_of_singleton in He; subst e; simpl; auto.
Qed.

(** X5. A call changes the tracker under the key it is given at most: every
    other entry is as before, no other key appears, and the tracker grows by
    one entry at most. *)
Theorem process_touches_one_key (h : Endianness) (t : Tracker)
    (key : ConnectionID) (tcp : tcphdr) (sip dip sp dp len : Z) :
  let r := process_tcp_packet h t key tcp sip dip sp dp len in
  (forall k, k <> key -> fst r !! k = t !! k)
  /\ dom (fst r) ⊆ dom t ∪ {[key]}
  /\ (size (fst r) <= S (size t))%nat.
Proof.
  intros r. subst r.
  destruct (process_tracker_shape h t key tcp sip dip sp dp len)
    as [-> | [-> | [(s & _ & ->) | [_ ->]]]].
  - repeat split; [set_solver | lia].
  - split; [intros k Hk; apply lookup_delete_ne; congruence |].
    split; [rewrite dom_delete_L; intros x Hx; set_unfold; tauto |].
    rewrite map_size_delete. destruct (t !! key); simpl; lia.
  - split; [intros k Hk; apply lookup_insert_ne; congruence |].
    split; [rewrite dom_insert_L; intros x Hx; set_unfold; tauto |].
    rewrite map_size_insert. destruct (t !! key); simpl; lia.
  - split; [intros k Hk; apply lookup_insert_ne; congruence |].
    split; [rewrite dom_insert_L; intros x Hx; set_unfold; tauto |].
    rewrite map_size_insert. destruct (t !! key); simpl; lia.
Qed.

Lemma process_touches_one_key_witness :
  fst (process_tcp_packet LittleEndian {[sample_other_key := ESTABLISHED]}
         sample_key hdr_syn 1 2 3 4 0) !! sample_other_key
  = ({[sample_other_key := ESTABLISHED]} : Tracker) !! sample_other_key.
Proof.
  apply (proj1 (process_touches_one_key LittleEndian
                  {[sample_other_key := ESTABLISHED]} sample_key hdr_syn 1 2 3 4 0)).
  discriminate.
Defined.

(** X6. A call prints one line at most, and it prints exactly one whenever it
    changes the tracker: no change of state goes unreported. *)
Theorem process_reports_every_change (h : Endianness) (t : Tracker)
    (key : ConnectionID) (tcp : tcphdr) (sip dip sp dp len : Z) :
  let r := process_tcp_packet h t key tcp sip dip sp dp len in
  (length (snd r) <= 1)%nat
  /\ (fst r <> t -> length (snd r) = 1%nat)
  /\ (snd r = [] -> fst r = t).
Proof.
  intros r. subst r. split; [apply process_at_most_one_event |].
  process_cases t key tcp len; split; intros Hchange;
    first [reflexivity | discriminate | contradiction Hchange; reflexivity].
Qed.

Lemma process_reports_every_change_witness :
  length (snd (process_tcp_packet LittleEndian ∅ sample_key hdr_syn 1 2 3 4 0))
  = 1%nat.
Proof.
  apply (process_reports_every_change LittleEndian ∅ sample_key hdr_syn 1 2 3 4 0).
  intros Hsame.
  assert (fst (process_tcp_packet LittleEndian ∅ sample_key hdr_syn 1 2 3 4 0)
          !! sample_key = Some SYN_SENT) as Hk by (vm_compute; reflexivity).
  rewrite Hsame in Hk. discriminate.
Defined.

(** X7. Every line a call prints shows the states as they are: the state on
    its left is the one the tracker held for the key before the call (CLOSED
    when it held none), the state on its right the one it holds after; and
    its endpoints are those of the packet, ports through [ntohs]. *)
Theorem process_event_states (h : Endianness) (t : Tracker)
    (key : ConnectionID) (tcp : tcphdr) (sip dip sp dp len : Z) (e : Event) :
  let r := process_tcp_packet h t key tcp sip dip sp dp len in
  e ∈ snd r ->
  ev_from e = default CLOSED (t !! key)
  /\ ev_to e = default CLOSED (fst r !! key)
  /\ ev_src_ip e = sip /\ ev_src_port e = ntohs h sp
  /\ ev_dst_ip e = dip /\ ev_dst_port e = ntohs h dp.
Proof.
  intros r He. subst r.
  split; [| split; [| exact (process_event_endpoints h t key tcp sip dip sp dp len e He)]];
    revert He; process_cases t key tcp len; intros He;
    try (apply elem_of_nil in He; contradiction);
    apply list_elem_of_singleton in He; subst e; cbn [ev_from ev_to];
    rewrite ?lookup_insert_eq, ?lookup_delete_eq; try reflexivity;
    match goal with Hk : t !! key = _ |- _ => rewrite Hk; reflexivity end.
Qed.

Lemma process_event_states_witness :
  ev_from (mkEvent Fin ESTABLISHED FIN_WAIT_1 1 (ntohs LittleEndian 3) 2
                   (ntohs LittleEndian 4) None)
  = default CLOSED (({[sample_key := ESTABLISHED]} : Tracker) !! sample_key).
Proof.
  apply (process_event_states LittleEndian {[sample_key := ESTABLISHED]}
           sample_key hdr_fin 1 2 3 4 0).
  vm_compute. apply list_elem_of_here.
Defined.

(** X8. For a key the tracker does not hold, only a SYN without ACK and
    without RST creates an entry, and the entry is SYN_SENT; any other packet
    leaves the tracker as it is, and prints nothing unless it is a RST. *)
Theorem process_unknown_flow (h : Endianness) (t : Tracker)
    (key : ConnectionID) (tcp : tcphdr) (sip dip sp dp len : Z) :
  t !! key = None ->
  let r := process_tcp_packet h t key tcp sip dip sp dp len in
  (is_SYN tcp = true ->
   fst r = <[key := SYN_SENT]> t
   /\ map transition_of (snd r) = [(Syn, CLOSED, SYN_SENT)])
  /\ (is_SYN tcp = false ->
      fst r = t
      /\ (tcp_rst tcp = false -> snd r = [])
      /\ (tcp_rst tcp = true ->
          map transition_of (snd r) = [(Rst, CLOSED, CLOSED)])).
Proof.
  intros Hk r. subst r. split.
  - intros Hsyn. rewrite (process_syn h t key tcp sip dip sp dp len Hk Hsyn).
    split; reflexivity.
  - unfold is_SYN, process_tcp_packet. rewrite Hk. simpl.
    destruct (tcp_rst tcp), (tcp_syn tcp), (tcp_ack tcp), (tcp_fin tcp),
      (Z.gtb_spec len 0); simpl; intros Hsyn; try discriminate;
      repeat split; try (intros; discriminate); try reflexivity;
      apply delete_id; exact Hk.
Qed.

Lemma process_unknown_flow_witness :
  fst (process_tcp_packet LittleEndian ∅ sample_key hdr_ack 1 2 3 4 100) = ∅.
Proof.
  apply (proj2 (process_unknown_flow LittleEndian ∅ sample_key hdr_ack
                  1 2 3 4 100 (lookup_empty sample_key))).
  reflexivity.
Defined.

(** X9. A data line is printed exactly when the flow is ESTABLISHED, rst is
    clear and the payload length is positive; the tracker is then left as it
    is and the line carries the length, whatever the other flags: a FIN that
    carries payload does not start the close. *)
Theorem process_data_line (h : Endianness) (t : Tracker)
    (key : ConnectionID) (tcp : tcphdr) (sip dip sp dp len : Z) :
  let r := process_tcp_packet h t key tcp sip dip sp dp len in
  ((exists e, e ∈ snd r /\ ev_reason e = Data)
   <-> (t !! key = Some ESTABLISHED /\ tcp_rst tcp = false /\ 0 < len))
  /\ (t !! key = Some ESTABLISHED -> tcp_rst tcp = false -> 0 < len ->
      r = (t, [mkEvent Data ESTABLISHED ESTABLISHED sip (ntohs h sp)
                       dip (ntohs h dp) (Some len)])).
Proof.
  intros r. subst r.
  assert (t !! key = Some ESTABLISHED -> tcp_rst tcp = false -> 0 < len ->
          process_tcp_packet h t key tcp sip dip sp dp len =
          (t, [mkEvent Data ESTABLISHED ESTABLISHED sip (ntohs h sp)
                       dip (ntohs h dp) (Some len)])) as Hdata.
  { intros Hk Hrst Hlen. unfold process_tcp_packet. rewrite Hk, Hrst. simpl.
    destruct (Z.gtb_spec len 0); [reflexivity | lia]. }
  split; [split | exact Hdata].
  - intros (e & He & Hr). revert He.
    process_cases t key tcp len; intros He;
      try (apply elem_of_nil in He; contradiction);
      apply list_elem_of_singleton in He; subst e; simpl in Hr;
      try discriminate; auto.
  - intros (Hk & Hrst & Hlen). rewrite (Hdata Hk Hrst Hlen).
    eexists. split; [apply list_elem_of_here | reflexivity].
Qed.

Lemma process_data_line_witness :
  process_tcp_packet LittleEndian {[sample_key := ESTABLISHED]} sample_key
    hdr_fin 1 2 3 4 100
  = ({[sample_key := ESTABLISHED]},
     [mkEvent Data ESTABLISHED ESTABLISHED 1 (ntohs LittleEndian 3) 2
              (ntohs LittleEndian 4) (Some 100)]).
Proof.
  apply (proj2 (process_data_line LittleEndian {[sample_key := ESTABLISHED]}
                  sample_key hdr_fin 1 2 3 4 100));
    [reflexivity | reflexivity | lia].
Defined.

(** X10. A call never moves a stored state backwards: when the key holds a
    state before and after the call, the state is the same or its enumerator
    has a larger value. *)
Theorem process_state_advances (h : Endianness) (t : Tracker)
    (key : ConnectionID) (tcp : tcphdr) (sip dip sp dp len : Z)
    (s s' : TcpState) :
  t !! key = Some s ->
  fst (process_tcp_packet h t key tcp sip dip sp dp len) !! key = Some s' ->
  s' = s \/ state_value s < state_value s'.
Proof.
  intros Hk. unfold process_tcp_packet. rewrite Hk. simpl.
  destruct s, (tcp_rst tcp), (tcp_syn tcp), (tcp_ack tcp), (tcp_fin tcp),
    (Z.gtb_spec len 0); simpl;
    rewrite ?lookup_insert_eq, ?lookup_delete_eq, ?Hk;
    intros [= <-]; simpl; auto; right; lia.
Qed.

Lemma process_state_advances_witness :
  FIN_WAIT_1 = ESTABLISHED \/ state_value ESTABLISHED < state_value FIN_WAIT_1.
Proof.
  apply (process_state_advances LittleEndian {[sample_key := ESTABLISHED]}
           sample_key hdr_fin 1 2 3 4 0); reflexivity.
Defined.

(* ------------------------------------------------------------------ *)
(** ** A simultaneous close *)

Lemma process_fin_fin_wait_1 (h : Endianness) (t : Tracker)
    (key : ConnectionID) (tcp : tcphdr) (sip dip sp dp len : Z) :
  t !! key = Some FIN_WAIT_1 -> is_FIN tcp = true ->
  process_tcp_packet h t key tcp sip dip sp dp len =
  (<[key := CLOSING]> t,
   [mkEvent Fin FIN_WAIT_1 CLOSING sip (ntohs h sp) dip (ntohs h dp) None]).
Proof.
  unfold is_FIN, process_tcp_packet. intros ->.
  destruct (tcp_rst tcp), (tcp_syn tcp), (tcp_ack tcp), (tcp_fin tcp); simpl;
    intros; try discriminate; reflexivity.
Qed.

Lemma process_ack_closing (h : Endianness) (t : Tracker)
    (key : ConnectionID) (tcp : tcphdr) (sip dip sp dp len : Z) :
  t !! key = Some CLOSING -> is_ACK tcp = true ->
  process_tcp_packet h t key tcp sip dip sp dp len =
  (delete key t,
   [mkEvent Ack CLOSING CLOSED sip (ntohs h sp) dip (ntohs h dp) None]).
Proof.
  unfold is_ACK, process_tcp_packet. intros ->.
  destruct (tcp_rst tcp), (tcp_syn tcp), (tcp_ack tcp), (tcp_fin tcp); simpl;
    intros; try discriminate; reflexivity.
Qed.

(** X11. From the empty tracker, the five control packets SYN, SYN/ACK, FIN,
    FIN, ACK of one flow (rst clear, no payload, each in either direction),
    that is a close in which the second FIN arrives before the ACK of the
    first, go through CLOSING and leave the tracker empty, with the lines
    Syn, SynAck, Fin, Fin, Ack. *)
Theorem simultaneous_close (h : Endianness) (ipA portA ipB portB : Z)
    (d1 d2 d3 d4 d5 : bool) (t1 t2 t3 t4 t5 : tcphdr) :
  is_SYN t1 = true -> is_SYNACK t2 = true -> is_FIN t3 = true ->
  is_FIN t4 = true -> is_ACK t5 = true ->
  let seg d tcp := control_segment d ipA portA ipB portB tcp in
  let r := track_all h ∅ [seg d1 t1; seg d2 t2; seg d3 t3; seg d4 t4; seg d5 t5] in
  fst r = ∅
  /\ map transition_of (snd r) =
     [(Syn, CLOSED, SYN_SENT); (SynAck, SYN_SENT, ESTABLISHED);
      (Fin, ESTABLISHED, FIN_WAIT_1); (Fin, FIN_WAIT_1, CLOSING);
      (Ack, CLOSING, CLOSED)].
Proof.
  intros H1 H2 H3 H4 H5 seg r. subst r seg.
  assert (tcp_fin t3 = true /\ tcp_rst t3 = false) as [H3f H3r].
  { unfold is_FIN in H3. destruct (tcp_fin t3), (tcp_rst t3); auto; discriminate. }
  set (k := make_canonical_id ipA (ntohs h portA) ipB (ntohs h portB)).
  cbn [track_all].
  rewrite track_control. fold k.
  rewrite (process_syn h ∅ k t1) by (apply lookup_empty || exact H1).
  cbv iota beta. rewrite track_control. fold k.
  rewrite (process_synack h _ k t2) by (apply lookup_insert_eq || exact H2).
  cbv iota beta. rewrite insert_insert_eq, track_control. fold k.
  rewrite (process_established_fin h _ k t3)
    by (apply lookup_insert_eq || assumption || lia).
  cbv iota beta. rewrite insert_insert_eq, track_control. fold k.
  rewrite (process_fin_fin_wait_1 h _ k t4) by (apply lookup_insert_eq || exact H4).
  cbv iota beta. rewrite insert_insert_eq, track_control. fold k.
  rewrite (process_ack_closing h _ k t5) by (apply lookup_insert_eq || exact H5).
  cbv iota beta. rewrite delete_insert_eq, delete_empty.
  split; reflexivity.
Qed.

Lemma simultaneous_close_witness :
  fst (track_all BigEndian ∅
         [control_segment true 1 8080 2 80 hdr_syn;
          control_segment false 1 8080 2 80 hdr_synack;
          control_segment true 1 8080 2 80 hdr_fin;
          control_segment false 1 8080 2 80 hdr_fin;
          control_segment true 1 8080 2 80 hdr_ack]) = ∅.
Proof.
  apply (simultaneous_close BigEndian 1 8080 2 80 true false true false true
           hdr_syn hdr_synack hdr_fin hdr_fin hdr_ack); reflexivity.
Defined.

(* ------------------------------------------------------------------ *)
(** ** More on runs of the loop *)

(** The loop is its decoding followed by the tracking of what it decoded. *)
Lemma capture_decoded (h : Endianness) (rs : list RecvResult) :
  forall (buffer : Buffer) (t : Tracker),
    capture h (buffer, t) rs =
    ((buffer_after buffer rs, fst (track_all h t (decoded_segments h buffer rs))),
     snd (track_all h t (decoded_segments h buffer rs))).
Proof.
  induction rs as [| r rs IH]; intros buffer t; [reflexivity |].
  destruct r as [| frame]; cbn [capture loop_body decoded_segments buffer_after fst snd].
  - rewrite IH. reflexivity.
  - destruct (decode_frame h (recv_into buffer frame)) as [s |].
    + cbn [track_all]. destruct (track_segment h t s) as [t1 evs1].
      rewrite IH. destruct (track_all h t1 _) as [t2 evs2]. reflexivity.
    + rewrite IH. reflexivity.
Qed.

Lemma track_all_app (h : Endianness) (ss1 ss2 : list Segment) :
  forall t,
    track_all h t (ss1 ++ ss2) =
    (fst (track_all h (fst (track_all h t ss1)) ss2),
     snd (track_all h t ss1) ++ snd (track_all h (fst (track_all h t ss1)) ss2)).
Proof.
  induction ss1 as [| s ss1 IH]; intros t; cbn [app track_all fst snd].
  - destruct (track_all h t ss2); reflexivity.
  - destruct (track_segment h t s) as [t1 evs1]. rewrite IH.
    destruct (track_all h t1 ss1) as [t2 evs2]. cbn [fst snd].
    rewrite app_assoc. reflexivity.
Qed.

Lemma decoded_segments_length (h : Endianness) (rs : list RecvResult) :
  forall buffer, (length (decoded_segments h buffer rs) <= length rs)%nat.
Proof.
  induction rs as [| r rs IH]; intros buffer; [reflexivity |].
  destruct r as [| frame]; cbn [decoded_segments length].
  - specialize (IH buffer). lia.
  - destruct (decode_frame h (recv_into buffer frame));
      specialize (IH (recv_into buffer frame)); cbn [length]; lia.
Qed.



Lemma track_all_counts (h : Endianness) (ss : list Segment) :
  forall t,
    (length (snd (track_all h t ss)) <= length ss)%nat
    /\ (size (fst (track_all h t ss)) <= size t + length ss)%nat.
Proof.
  induction ss as [| s ss IH]; intros t; cbn [track_all length fst snd].
  - split; lia.
  - pose proof (process_at_most_one_event h t (segment_key h s) (seg_tcp s)
                  (seg_src_ip s) (seg_dst_ip s) (seg_src_port s)
                  (seg_dst_port s) (seg_data_len s)) as Hev.
    assert (size (fst (track_segment h t s)) <= S (size t))%nat as Hsize.
    { unfold track_segment.
      destruct (process_tracker_shape h t (segment_key h s) (seg_tcp s)
                  (seg_src_ip s) (seg_dst_ip s) (seg_src_port s)
                  (seg_dst_port s) (seg_data_len s))
        as [-> | [-> | [(s' & _ & ->) | [_ ->]]]].
      - lia.
      - rewrite map_size_delete. destruct (t !! segment_key h s); simpl; lia.
      - rewrite map_size_insert. destruct (t !! segment_key h s); simpl; lia.
      - rewrite map_size_insert. destruct (t !! segment_key h s); simpl; lia. }
    fold (track_segment h t s) in Hev.
    destruct (track_segment h t s) as [t1 evs1]. cbn [fst snd] in *.
    destruct (IH t1) as [IH1 IH2].
    destruct (track_all h t1 ss) as [t2 evs2]. cbn [fst snd] in *.
    rewrite length_app. split; lia.
Qed.

(** X14. A run of the loop prints at most one line per frame received, and
    from the empty tracker it holds at most one entry per frame received. *)
Theorem capture_counts (h : Endianness) (buffer : Buffer) (t : Tracker)
    (rs : list RecvResult) :
  (length (events_of (capture h (buffer, t) rs)) <= length rs)%nat
  /\ (size (tracker_of (capture h (buffer, t) rs)) <= size t + length rs)%nat
  /\ (size (tracker_of (capture h (buffer, ∅) rs)) <= length rs)%nat.
Proof.
  assert (forall t', (length (events_of (capture h (buffer, t') rs)) <= length rs)%nat
                     /\ (size (tracker_of (capture h (buffer, t') rs))
                         <= size t' + length rs)%nat) as Hboth.
  { intros t'. rewrite capture_decoded. unfold events_of, tracker_of. cbn [fst snd].
    destruct (track_all_counts h (decoded_segments h buffer rs) t') as [Hev Hsize].
    pose proof (decoded_segments_length h rs buffer) as Hlen.
    split; lia. }
  destruct (Hboth t) as [H1 H2]. destruct (Hboth ∅) as [_ H3].
  rewrite map_size_empty in H3. repeat split; assumption.
Qed.

Lemma track_all_other_flows (h : Endianness) (k : ConnectionID)
    (ss : list Segment) :
  forall t, Forall (fun s => segment_key h s <> k) ss ->
            fst (track_all h t ss) !! k = t !! k.
Proof.
  induction ss as [| s ss IH]; intros t Hall; [reflexivity |].
  apply Forall_cons in Hall as [Hs Hall]. cbn [track_all].
  pose proof (process_other_key h t (segment_key h s) (seg_tcp s)
                (seg_src_ip s) (seg_dst_ip s) (seg_src_port s)
                (seg_dst_port s) (seg_data_len s) k) as Hother.
  fold (track_segment h t s) in Hother.
  destruct (track_segment h t s) as [t1 evs1]. cbn [fst] in Hother.
  specialize (IH t1 Hall).
  destruct (track_all h t1 ss) as [t2 evs2]. cbn [fst] in *.
  rewrite IH. apply Hother. congruence.
Qed.

(** X15. Flows do not disturb each other: the state the tracker holds for a
    key is the same before and after a run of the loop in which no decoded
    segment has that key. *)
Theorem capture_other_flows (h : Endianness) (buffer : Buffer) (t : Tracker)
    (rs : list RecvResult) (k : ConnectionID) :
  Forall (fun s => segment_key h s <> k) (decoded_segments h buffer rs) ->
  tracker_of (capture h (buffer, t) rs) !! k = t !! k.
Proof.
  intros Hall. rewrite capture_decoded. unfold tracker_of. cbn [fst snd].
  apply track_all_other_flows. exact Hall.
Qed.

Lemma capture_other_flows_witness :
  tracker_of (capture LittleEndian (zero_buffer, {[sample_key := ESTABLISHED]})
                (map Received [frame_syn; frame_synack])) !! sample_key
  = ({[sample_key := ESTABLISHED]} : Tracker) !! sample_key.
Proof.
  apply (capture_other_flows LittleEndian zero_buffer
           {[sample_key := ESTABLISHED]} (map Received [frame_syn; frame_synack])
           sample_key).
  vm_compute. repeat constructor; discriminate.
Defined.

(* ------------------------------------------------------------------ *)
(** ** The states and keys a run can store *)

(** X16. The states a run of the loop from the empty tracker can leave under
    a key are exactly SYN_SENT, ESTABLISHED, FIN_WAIT_1, FIN_WAIT_2, TIME_WAIT
    and CLOSING: each of them is stored after some sequence of frames, on
    either kind of host, and no other state (SYN_RECEIVED among them) ever
    is. *)
Theorem stored_states_exactly (s : TcpState) :
  ((exists h buffer rs k, tracker_of (capture h (buffer, ∅) rs) !! k = Some s)
   <-> live_state s)
  /\ (live_state s ->
      forall h, exists rs,
        tracker_of (capture h (zero_buffer, ∅) rs) !! flow_key h = Some s).
Proof.
  assert (live_state s ->
          forall h, exists rs,
            tracker_of (capture h (zero_buffer, ∅) rs) !! flow_key h = Some s)
    as Hreach.
  { unfold live_state. intros Hs h.
    destruct Hs as [-> | [-> | [-> | [-> | [-> | ->]]]]].
    - exists (map Received [frame_syn]). destruct h; vm_compute; reflexivity.
    - exists (map Received [frame_syn; frame_synack]).
      destruct h; vm_compute; reflexivity.
    - exists (map Received [frame_syn; frame_synack; frame_fin]).
      destruct h; vm_compute; reflexivity.
    - exists (map Received [frame_syn; frame_synack; frame_fin; frame_ack_back]).
      destruct h; vm_compute; reflexivity.
    - exists (map Received [frame_syn; frame_synack; frame_fin; frame_ack_back;
                            frame_fin_back]).
      destruct h; vm_compute; reflexivity.
    - exists (map Received [frame_syn; frame_synack; frame_fin; frame_fin_back]).
      destruct h; vm_compute; reflexivity. }
  split; [split | exact Hreach].
  - intros (h & buffer & rs & k & Hk).
    exact (capture_from_empty_live h buffer rs k s Hk).
  - intros Hs. destruct (Hreach Hs LittleEndian) as [rs Hrs].
    exists LittleEndian, zero_buffer, rs, (flow_key LittleEndian). exact Hrs.
Qed.

Lemma stored_states_exactly_witness :
  exists rs, tracker_of (capture BigEndian (zero_buffer, ∅) rs)
             !! flow_key BigEndian = Some CLOSING.
Proof.
  apply (proj2 (stored_states_exactly CLOSING)).
  unfold live_state. auto 10.
Defined.

Lemma track_segment_canonical_keys (h : Endianness) (t : Tracker) (s : Segment) :
  canonical_keys t -> canonical_keys (fst (track_segment h t s)).
Proof.
  intros Ht. unfold track_segment.
  assert (canonical (segment_key h s)) as Hkey
    by apply make_canonical_id_ordered.
  destruct (process_tracker_shape h t (segment_key h s) (seg_tcp s)
              (seg_src_ip s) (seg_dst_ip s) (seg_src_port s)
              (seg_dst_port s) (seg_data_len s))
    as [-> | [-> | [(s' & _ & ->) | [_ ->]]]].
  - exact Ht.
  - apply map_Forall_delete. exact Ht.
  - apply map_Forall_insert_2; assumption.
  - apply map_Forall_insert_2; assumption.
Qed.

Lemma track_all_canonical_keys (h : Endianness) (ss : list Segment) :
  forall t, canonical_keys t -> canonical_keys (fst (track_all h t ss)).
Proof.
  induction ss as [| s ss IH]; intros t Ht; cbn [track_all]; [exact Ht |].
  pose proof (track_segment_canonical_keys h t s Ht) as H1.
  destruct (track_segment h t s) as [t1 evs1].
  specialize (IH t1 H1). destruct (track_all h t1 ss) as [t2 evs2]. exact IH.
Qed.

(** X17. Every key a run of the loop from the empty tracker stores is
    canonical (its first endpoint is not above its second), so a flow between
    two different endpoints never has two entries, one for each direction. *)
Theorem capture_keys_canonical (h : Endianness) (buffer : Buffer)
    (rs : list RecvResult) (k : ConnectionID) :
  let t := tracker_of (capture h (buffer, ∅) rs) in
  (is_Some (t !! k) -> canonical k)
  /\ ((src_ip k, src_port k) <> (dst_ip k, dst_port k) ->
      is_Some (t !! k) ->
      t !! {| src_ip := dst_ip k; src_port := dst_port k;
              dst_ip := src_ip k; dst_port := src_port k |} = None).
Proof.
  intros t.
  assert (canonical_keys t) as Hall.
  { subst t. rewrite capture_decoded. unfold tracker_of. cbn [fst snd].
    apply track_all_canonical_keys. apply map_Forall_empty. }
  assert (forall k', is_Some (t !! k') -> canonical k') as Hcan.
  { intros k' [s Hs]. exact (Hall k' s Hs). }
  split; [apply Hcan |].
  intros Hne Hk.
  destruct (t !! {| src_ip := dst_ip k; src_port := dst_port k;
                    dst_ip := src_ip k; dst_port := src_port k |})
    as [s' |] eqn:Hmirror; [| reflexivity].
  exfalso. apply Hne.
  pose proof (Hcan k Hk) as Hc1.
  pose proof (Hcan _ (mk_is_Some _ _ Hmirror)) as Hc2.
  unfold canonical in Hc1, Hc2. simpl in Hc2. f_equal; lia.
Qed.

Lemma capture_keys_canonical_witness :
  canonical (flow_key LittleEndian).
Proof.
  apply (capture_keys_canonical LittleEndian zero_buffer
           (map Received [frame_syn]) (flow_key LittleEndian)).
  vm_compute. eexists. reflexivity.
Defined.

(* ------------------------------------------------------------------ *)
(** ** More on the decoding of a frame *)

(** The two outcomes of the decoding, by the EtherType and the protocol
    number as they are on the wire. *)
Lemma decode_frame_cases (h : Endianness) (buffer : Buffer) :
  (decode_frame h buffer = None
   /\ (wire16 buffer 12 <> 0x0800 \/ load8 buffer 23 <> 6))
  \/ (wire16 buffer 12 = 0x0800 /\ load8 buffer 23 = 6
      /\ decode_frame h buffer =
         Some {| seg_src_ip := load32 h buffer 26; seg_dst_ip := load32 h buffer 30;
                 seg_src_port := load16 h buffer (tcp_offset buffer);
                 seg_dst_port := load16 h buffer (tcp_offset buffer + 2);
                 seg_tcp := read_tcphdr h buffer (tcp_offset buffer);
                 seg_data_len := wire16 buffer 16 - ip_header_len buffer
                                 - tcp_header_len h buffer |}).
Proof.
  unfold decode_frame, ip_total_len. rewrite !ntohs_load16.
  change (ETH_HLEN + 9)%nat with 23%nat. change (ETH_HLEN + 2)%nat with 16%nat.
  destruct (Z.eqb_spec (wire16 buffer 12) 2048) as [Hproto | Hproto]; simpl;
    [| left; split; [reflexivity | left; exact Hproto]].
  destruct (Z.eqb_spec (load8 buffer 23) 6) as [Htcp | Htcp]; simpl;
    [| left; split; [reflexivity | right; exact Htcp]].
  right. repeat split; assumption.
Qed.

(** X18. The loop skips a frame exactly when its EtherType, read most
    significant byte first, is not 0x0800 or its IP protocol byte is not 6,
    on either kind of host; a skipped frame overwrites the buffer, leaves the
    tracker as it is and prints nothing. *)
Theorem decode_frame_skips (h : Endianness) (st : Buffer * Tracker)
    (frame : list byte) :
  let buffer := recv_into (fst st) frame in
  (decode_frame h buffer = None
   <-> (wire16 buffer 12 <> 0x0800 \/ load8 buffer 23 <> 6))
  /\ (wire16 buffer 12 <> 0x0800 \/ load8 buffer 23 <> 6 ->
      loop_body h st (Received frame) = ((buffer, snd st), [])).
Proof.
  intros buffer.
  assert (decode_frame h buffer = None
          <-> (wire16 buffer 12 <> 0x0800 \/ load8 buffer 23 <> 6)) as Hiff.
  { destruct (decode_frame_cases h buffer) as [[Hnone Hwhy] | (Hp & Ht & Hsome)].
    - split; intros; assumption.
    - rewrite Hsome. split; [discriminate |]. intros [Hno | Hno]; contradiction. }
  split; [exact Hiff |].
  intros Hskip. apply Hiff in Hskip. unfold loop_body. fold buffer.
  rewrite Hskip. reflexivity.
Qed.

Lemma decode_frame_skips_witness :
  loop_body LittleEndian (zero_buffer, {[sample_key := ESTABLISHED]})
            (Received [])
  = ((recv_into zero_buffer [], {[sample_key := ESTABLISHED]}), []).
Proof.
  refine (proj2 (decode_frame_skips LittleEndian
                   (zero_buffer, {[sample_key := ESTABLISHED]}) []) _).
  left. vm_compute. discriminate.
Defined.

Lemma load16_range (h : Endianness) (buffer : Buffer) (off : nat) :
  0 <= load16 h buffer off < 65536.
Proof.
  pose proof (load8_range buffer off). pose proof (load8_range buffer (off + 1)).
  destruct h; unfold load16; lia.
Qed.

Lemma load32_range (h : Endianness) (buffer : Buffer) (off : nat) :
  0 <= load32 h buffer off < 4294967296.
Proof.
  pose proof (load8_range buffer off). pose proof (load8_range buffer (off + 1)).
  pose proof (load8_range buffer (off + 2)).
  pose proof (load8_range buffer (off + 3)).
  destruct h; unfold load32; lia.
Qed.

Lemma wire16_range (buffer : Buffer) (off : nat) : 0 <= wire16 buffer off < 65536.
Proof.
  pose proof (load8_range buffer off). pose proof (load8_range buffer (off + 1)).
  unfold wire16; lia.
Qed.

Lemma ip_header_len_range (buffer : Buffer) : 0 <= ip_header_len buffer <= 60.
Proof.
  unfold ip_header_len. change 15 with (Z.ones 4).
  rewrite Z.land_ones by lia.
  pose proof (Z.mod_pos_bound (load8 buffer ETH_HLEN) (2 ^ 4) ltac:(lia)).
  change (2 ^ 4) with 16 in *. lia.
Qed.

Lemma tcp_header_len_range (h : Endianness) (buffer : Buffer) :
  0 <= tcp_header_len h buffer <= 60.
Proof.
  unfold tcp_header_len, read_tcphdr. cbn [tcp_doff].
  rewrite Z.shiftr_div_pow2 by lia. change (2 ^ 4) with 16.
  pose proof (load8_range buffer (tcp_offset buffer + 12)) as Hb.
  assert (0 <= load8 buffer (tcp_offset buffer + 12) / 16 < 16).
  { split; [apply Z.div_pos; lia | apply Z.div_lt_upper_bound; lia]. }
  lia.
Qed.

Lemma tcp_offset_range (buffer : Buffer) : (14 <= tcp_offset buffer <= 74)%nat.
Proof.
  unfold tcp_offset, ETH_HLEN. pose proof (ip_header_len_range buffer). lia.
Qed.

(** X19. The loop never reads the buffer at or beyond offset 88, far inside
    its 65536 bytes (two buffers that agree below offset 88 are decoded
    alike), and every quantity it decodes fits the C type that holds it:
    addresses in 32 bits, ports in 16, header lengths between 0 and 60, and a
    payload length between -120 and 65535. *)
Theorem decode_frame_ranges (h : Endianness) (buffer : Buffer) :
  (decode_extent buffer <= 88)%nat
  /\ (forall buffer' : Buffer,
        (forall i, (i < 88)%nat -> buffer i = buffer' i) ->
        decode_frame h buffer = decode_frame h buffer')
  /\ 0 <= ip_header_len buffer <= 60
  /\ 0 <= tcp_header_len h buffer <= 60
  /\ 0 <= ip_total_len h buffer < 65536
  /\ (forall s, decode_frame h buffer = Some s ->
        0 <= seg_src_ip s < 4294967296 /\ 0 <= seg_dst_ip s < 4294967296
        /\ 0 <= seg_src_port s < 65536 /\ 0 <= seg_dst_port s < 65536
        /\ 0 <= ntohs h (seg_src_port s) < 65536
        /\ 0 <= ntohs h (seg_dst_port s) < 65536
        /\ -120 <= seg_data_len s <= 65535).
Proof.
  pose proof (tcp_offset_range buffer) as Hoff.
  pose proof (ip_header_len_range buffer) as Hihl.
  pose proof (tcp_header_len_range h buffer) as Hdoff.
  split; [unfold decode_extent; lia |].
  split.
  { intros buffer' Hagree.
    apply (decode_frame_agree buffer buffer' 88 Hagree h).
    unfold decode_extent. lia. }
  split; [exact Hihl |]. split; [exact Hdoff |].
  split; [unfold ip_total_len; rewrite ntohs_load16; apply wire16_range |].
  intros s Hs.
  destruct (decode_frame_cases h buffer) as [[Hnone _] | (_ & _ & Hsome)];
    [congruence |].
  rewrite Hsome in Hs. injection Hs as <-. cbn [seg_src_ip seg_dst_ip
    seg_src_port seg_dst_port seg_data_len].
  rewrite !ntohs_load16.
  pose proof (wire16_range buffer 16).
  repeat split;
    first [apply load32_range | apply load16_range | apply wire16_range | lia].
Qed.

Lemma decode_frame_ranges_witness :
  exists s, decode_frame LittleEndian (recv_into zero_buffer frame_syn_short_total)
            = Some s /\ -120 <= seg_data_len s <= 65535.
Proof.
  eexists. split; [reflexivity |].
  apply (decode_frame_ranges LittleEndian
           (recv_into zero_buffer frame_syn_short_total)).
  reflexivity.
Defined.

(* ------------------------------------------------------------------ *)
(** ** Rendering *)

Lemma octets_little_endian (a b c d : Z) :
  octet a -> octet b -> octet c -> octet d ->
  let v := a + 256 * b + 65536 * c + 16777216 * d in
  v mod 256 = a /\ (v / 256) mod 256 = b /\ (v / 65536) mod 256 = c
  /\ (v / 16777216) mod 256 = d.
Proof.
  intros Ha Hb Hc Hd. unfold octet in *. cbv zeta.
  assert (forall x y, 0 <= x < 256 -> (x + 256 * y) mod 256 = x) as Hmod.
  { intros x y Hx. replace (x + 256 * y) with (x + y * 256) by lia.
    rewrite Z.mod_add by lia. apply Z.mod_small; lia. }
  assert (forall x y, 0 <= x < 256 -> (x + 256 * y) / 256 = y) as Hdiv.
  { intros x y Hx. replace (x + 256 * y) with (x + y * 256) by lia.
    rewrite Z.div_add by lia. rewrite (Z.div_small x) by lia. lia. }
  replace (a + 256 * b + 65536 * c + 16777216 * d)
    with (a + 256 * (b + 256 * (c + 256 * d))) by lia.
  replace 65536 with (256 * 256) by lia.
  replace 16777216 with (256 * 256 * 256) by lia.
  rewrite <- !Z.div_div by lia.
  rewrite !Hdiv, !Hmod by lia. rewrite Z.mod_small by lia. auto.
Qed.

(** The bytes of an address kept in network byte order lie in memory in the
    order of its octets, on either kind of host. *)
Lemma store32_inet_addr (h : Endianness) (a b c d : Z) :
  octet a -> octet b -> octet c -> octet d ->
  store32 h (inet_addr h a b c d) = [a; b; c; d].
Proof.
  intros Ha Hb Hc Hd. destruct h; unfold store32, inet_addr.
  - destruct (octets_little_endian a b c d Ha Hb Hc Hd) as (-> & -> & -> & ->).
    reflexivity.
  - replace (16777216 * a + 65536 * b + 256 * c + d)
      with (d + 256 * c + 65536 * b + 16777216 * a) by lia.
    destruct (octets_little_endian d c b a Hd Hc Hb Ha) as (-> & -> & -> & ->).
    reflexivity.
Qed.

Lemma ip_to_string_load32 (h : Endianness) (buffer : Buffer) (off : nat) :
  ip_to_string h (load32 h buffer off) =
  dotted [load8 buffer off; load8 buffer (off + 1); load8 buffer (off + 2);
          load8 buffer (off + 3)].
Proof.
  unfold ip_to_string, inet_ntoa. rewrite load32_inet_addr.
  rewrite store32_inet_addr by apply load8_range. reflexivity.
Qed.

(** X20. [ip_to_string] of an address field read from a frame and left
    unconverted is the dotted form of the four bytes of the field in the
    order they have on the wire, on either kind of host; so
    [ip_to_string] of the address 192.168.1.100 as the program holds it is
    the string 192.168.1.100. *)
Theorem ip_to_string_wire_order (h : Endianness) :
  (forall buffer off,
      ip_to_string h (load32 h buffer off) =
      dotted [load8 buffer off; load8 buffer (off + 1); load8 buffer (off + 2);
              load8 buffer (off + 3)])
  /\ (forall a b c d, octet a -> octet b -> octet c -> octet d ->
        ip_to_string h (inet_addr h a b c d) = dotted [a; b; c; d])
  /\ ip_to_string h (inet_addr h 192 168 1 100) = "192.168.1.100"%string.
Proof.
  split; [apply ip_to_string_load32 |].
  assert (forall a b c d, octet a -> octet b -> octet c -> octet d ->
            ip_to_string h (inet_addr h a b c d) = dotted [a; b; c; d]) as Hoct.
  { intros a b c d Ha Hb Hc Hd. unfold ip_to_string, inet_ntoa.
    rewrite store32_inet_addr by assumption. reflexivity. }
  split; [exact Hoct |].
  rewrite Hoct by (unfold octet; lia). vm_compute. reflexivity.
Qed.

Lemma ip_to_string_wire_order_witness :
  ip_to_string BigEndian (inet_addr BigEndian 10 0 0 1) = dotted [10; 0; 0; 1].
Proof.
  apply (proj1 (proj2 (ip_to_string_wire_order BigEndian))); unfold octet; lia.
Defined.

(** X21. Every line the loop prints for a frame shows the sender of the
    frame first and its receiver second: the addresses, through
    [ip_to_string], are the source and destination address bytes of the IP
    header in wire order, and the ports are the source and destination port
    numbers of the TCP header, on either kind of host. *)
Theorem loop_body_event_endpoints (h : Endianness) (st : Buffer * Tracker)
    (frame : list byte) (e : Event) :
  let buffer := recv_into (fst st) frame in
  e ∈ events_of (loop_body h st (Received frame)) ->
  ip_to_string h (ev_src_ip e) =
    dotted [load8 buffer 26; load8 buffer 27; load8 buffer 28; load8 buffer 29]
  /\ ev_src_port e = wire16 buffer (tcp_offset buffer)
  /\ ip_to_string h (ev_dst_ip e) =
    dotted [load8 buffer 30; load8 buffer 31; load8 buffer 32; load8 buffer 33]
  /\ ev_dst_port e = wire16 buffer (tcp_offset buffer + 2).
Proof.
  intros buffer. unfold events_of, loop_body. fold buffer.
  destruct (decode_frame_cases h buffer) as [[-> _] | (_ & _ & ->)].
  - simpl. intros He. apply elem_of_nil in He. contradiction.
  - unfold track_segment. cbn [seg_src_ip seg_dst_ip seg_src_port seg_dst_port
      seg_tcp seg_data_len].
    destruct (process_tcp_packet h (snd st) _ _ _ _ _ _ _) as [t' evs] eqn:Hcall.
    cbn [snd]. intros He.
    assert (e ∈ snd (t', evs)) as He' by exact He.
    rewrite <- Hcall in He'.
    apply process_event_endpoints in He' as (-> & -> & -> & ->).
    rewrite !ntohs_load16, !ip_to_string_load32. repeat split.
Qed.

Lemma loop_body_event_endpoints_witness :
  ev_src_port (mkEvent Syn CLOSED SYN_SENT 1677830336 8080 16777226 80 None)
  = wire16 (recv_into zero_buffer frame_syn)
           (tcp_offset (recv_into zero_buffer frame_syn)).
Proof.
  assert (mkEvent Syn CLOSED SYN_SENT 1677830336 8080 16777226 80 None
          ∈ events_of (loop_body LittleEndian (zero_buffer, ∅) (Received frame_syn)))
    as He by (vm_compute; apply list_elem_of_here).
  exact (proj1 (proj2 (loop_body_event_endpoints LittleEndian (zero_buffer, ∅)
                         frame_syn _ He))).
Defined.

(** X22. [state_to_string] gives the ten states ten different names, none of
    them the name UNKNOWN of its default case, so the states between brackets
    in a printed line identify the states. *)
Theorem state_to_string_inj :
  (forall s s', state_to_string s = state_to_string s' -> s = s')
  /\ (forall s, state_to_string s <> "UNKNOWN"%string).
Proof.
  split.
  - intros s s'. destruct s, s'; simpl; intros Heq;
      first [reflexivity | discriminate Heq].
  - intros s. destruct s; discriminate.
Qed.

Lemma state_to_string_inj_witness :
  FIN_WAIT_1 = FIN_WAIT_1.
Proof.
  apply (proj1 state_to_string_inj FIN_WAIT_1 FIN_WAIT_1). reflexivity.
Defined.

(* ------------------------------------------------------------------ *)
(** ** The two kinds of host *)

Lemma inet_addr_inj (h : Endianness) (a b c d a' b' c' d' : Z) :
  octet a -> octet b -> octet c -> octet d ->
  octet a' -> octet b' -> octet c' -> octet d' ->
  inet_addr h a b c d = inet_addr h a' b' c' d' ->
  a = a' /\ b = b' /\ c = c' /\ d = d'.
Proof. unfold octet. destruct h; unfold inet_addr; intros; lia. Qed.

Lemma endpoint_addr_inj (h : Endianness) (A B : Endpoint) :
  valid_endpoint A -> valid_endpoint B ->
  endpoint_addr h A = endpoint_addr h B -> ep_port A = ep_port B -> A = B.
Proof.
  destruct A as [a1 a2 a3 a4 pa], B as [b1 b2 b3 b4 pb].
  unfold valid_endpoint, endpoint_addr. simpl.
  intros (? & ? & ? & ?) (? & ? & ? & ?) Haddr ->.
  apply inet_addr_inj in Haddr as (-> & -> & -> & ->); auto.
Qed.

(** On either host, two flows have the same key exactly when they are the
    same pair of endpoints. *)
Lemma wire_key_eq_iff (h : Endianness) (A B A0 B0 : Endpoint) :
  valid_endpoint A -> valid_endpoint B ->
  valid_endpoint A0 -> valid_endpoint B0 ->
  wire_key h A B = wire_key h A0 B0
  <-> ((A = A0 /\ B = B0) \/ (A = B0 /\ B = A0)).
Proof.
  intros HA HB HA0 HB0. unfold wire_key. split.
  - intros Hkey.
    apply canonical_id_inj in Hkey as [(H1 & H2 & H3 & H4) | (H1 & H2 & H3 & H4)].
    + left. split; apply (endpoint_addr_inj h); assumption.
    + right. split; apply (endpoint_addr_inj h); assumption.
  - intros [[-> ->] | [-> ->]]; apply canonical_id_same_pair; auto.
Qed.

Lemma wire_key_hosts (A B A0 B0 : Endpoint) :
  valid_endpoint A -> valid_endpoint B ->
  valid_endpoint A0 -> valid_endpoint B0 ->
  wire_key LittleEndian A B = wire_key LittleEndian A0 B0
  <-> wire_key BigEndian A B = wire_key BigEndian A0 B0.
Proof.
  intros HA HB HA0 HB0.
  rewrite !wire_key_eq_iff by assumption. reflexivity.
Qed.

Lemma frame_endpoints_valid (buffer : Buffer) :
  valid_endpoint (frame_src buffer) /\ valid_endpoint (frame_dst buffer).
Proof.
  unfold valid_endpoint, frame_src, frame_dst, octet. simpl.
  repeat split; apply load8_range.
Qed.

(** The key of a decoded segment is the key of the flow between the sender
    and the receiver of the frame. *)
Lemma decode_frame_wire_key (h : Endianness) (buffer : Buffer) (s : Segment) :
  decode_frame h buffer = Some s ->
  segment_key h s = wire_key h (frame_src buffer) (frame_dst buffer).
Proof.
  intros Hs.
  destruct (decode_frame_cases h buffer) as [[Hnone _] | (_ & _ & Hsome)];
    [congruence |].
  rewrite Hsome in Hs. injection Hs as <-.
  unfold segment_key, wire_key, endpoint_addr, frame_src, frame_dst.
  cbn [seg_src_ip seg_dst_ip seg_src_port seg_dst_port
       ep_o1 ep_o2 ep_o3 ep_o4 ep_port].
  rewrite !ntohs_load16, !load32_inet_addr. reflexivity.
Qed.

(** The lines of a call with the endpoints the call was given. *)
Lemma process_printed (h : Endianness) (t : Tracker) (key : ConnectionID)
    (tcp : tcphdr) (sip dip sp dp len : Z) :
  map (printed h) (snd (process_tcp_packet h t key tcp sip dip sp dp len)) =
  map (fun c : Reason * TcpState * TcpState * option Z =>
         (c.1.1.1, c.1.1.2, c.1.2, ip_to_string h sip, ntohs h sp,
          ip_to_string h dip, ntohs h dp, c.2))
      (map (fun e => (transition_of e, ev_bytes e))
           (snd (process_tcp_packet h t key tcp sip dip sp dp len))).
Proof.
  rewrite map_map. apply map_ext_in. intros e He.
  apply list_elem_of_In in He.
  apply process_event_endpoints in He as (Hs & Hp & Hd & Hq).
  unfold printed, transition_of. simpl. rewrite Hs, Hp, Hd, Hq. reflexivity.
Qed.

(** What a call does under its key, and the lines it prints but for the
    endpoints, depend on the state under the key, the four flags it reads and
    the payload length only. *)
Lemma process_core_related (h1 h2 : Endianness) (t1 t2 : Tracker)
    (k1 k2 : ConnectionID) (tcp1 tcp2 : tcphdr)
    (sip1 dip1 sp1 dp1 sip2 dip2 sp2 dp2 len : Z) :
  t1 !! k1 = t2 !! k2 ->
  tcp_rst tcp1 = tcp_rst tcp2 -> tcp_syn tcp1 = tcp_syn tcp2 ->
  tcp_ack tcp1 = tcp_ack tcp2 -> tcp_fin tcp1 = tcp_fin tcp2 ->
  fst (process_tcp_packet h1 t1 k1 tcp1 sip1 dip1 sp1 dp1 len) !! k1
  = fst (process_tcp_packet h2 t2 k2 tcp2 sip2 dip2 sp2 dp2 len) !! k2
  /\ map (fun e => (transition_of e, ev_bytes e))
         (snd (process_tcp_packet h1 t1 k1 tcp1 sip1 dip1 sp1 dp1 len))
     = map (fun e => (transition_of e, ev_bytes e))
           (snd (process_tcp_packet h2 t2 k2 tcp2 sip2 dip2 sp2 dp2 len)).
Proof.
  intros Hk Hrst Hsyn Hack Hfin. unfold process_tcp_packet.
  rewrite Hk, Hrst, Hsyn, Hack, Hfin.
  destruct (t2 !! k2) as [[] |] eqn:Hk2; simpl;
    destruct (tcp_rst tcp2), (tcp_syn tcp2), (tcp_ack tcp2), (tcp_fin tcp2),
      (Z.gtb_spec len 0); simpl;
    rewrite ?lookup_insert_eq, ?lookup_delete_eq, ?Hk, ?Hk2;
    split; reflexivity.
Qed.

Lemma read_tcphdr_hosts (buffer : Buffer) (off : nat) :
  let tL := read_tcphdr LittleEndian buffer off in
  let tB := read_tcphdr BigEndian buffer off in
  tcp_rst tL = tcp_rst tB /\ tcp_syn tL = tcp_syn tB /\ tcp_ack tL = tcp_ack tB
  /\ tcp_fin tL = tcp_fin tB /\ tcp_doff tL = tcp_doff tB.
Proof. repeat split. Qed.

(** One iteration on each kind of host, from trackers that hold the same
    flows. *)
Lemma loop_body_hosts (buffer : Buffer) (tL tB : Tracker) (r : RecvResult) :
  same_flows tL tB ->
  let rL := loop_body LittleEndian (buffer, tL) r in
  let rB := loop_body BigEndian (buffer, tB) r in
  fst (fst rL) = fst (fst rB)
  /\ same_flows (tracker_of rL) (tracker_of rB)
  /\ map (printed LittleEndian) (events_of rL)
     = map (printed BigEndian) (events_of rB).
Proof.
  intros Hsame rL rB. subst rL rB. unfold tracker_of, events_of.
  destruct r as [| frame]; cbn [loop_body fst snd]; [auto |].
  set (b := recv_into buffer frame).
  destruct (frame_endpoints_valid b) as [Hsrc Hdst].
  destruct (decode_frame_cases LittleEndian b) as [[HL Hwhy] | (Hp & Ht & HL)];
    destruct (decode_frame_cases BigEndian b) as [[HB Hwhy'] | (Hp' & Ht' & HB)];
    try (exfalso; tauto).
  - rewrite HL, HB. cbn [fst snd]. auto.
  - pose proof (decode_frame_wire_key LittleEndian b _ HL) as HkL.
    pose proof (decode_frame_wire_key BigEndian b _ HB) as HkB.
    rewrite HL, HB. unfold track_segment. rewrite HkL, HkB.
    cbn [seg_src_ip seg_dst_ip seg_src_port seg_dst_port seg_tcp seg_data_len].
    unfold tcp_header_len.
    destruct (read_tcphdr_hosts b (tcp_offset b)) as (Ft & Fs & Fa & Ff & Fd).
    cbv zeta in Ft, Fs, Fa, Ff, Fd. rewrite Fd.
    set (len := wire16 b 16 - ip_header_len b
                - tcp_doff (read_tcphdr BigEndian b (tcp_offset b)) * 4).
    pose proof (process_core_related LittleEndian BigEndian tL tB
                  (wire_key LittleEndian (frame_src b) (frame_dst b))
                  (wire_key BigEndian (frame_src b) (frame_dst b))
                  (read_tcphdr LittleEndian b (tcp_offset b))
                  (read_tcphdr BigEndian b (tcp_offset b))
                  (load32 LittleEndian b 26) (load32 LittleEndian b 30)
                  (load16 LittleEndian b (tcp_offset b))
                  (load16 LittleEndian b (tcp_offset b + 2))
                  (load32 BigEndian b 26) (load32 BigEndian b 30)
                  (load16 BigEndian b (tcp_offset b))
                  (load16 BigEndian b (tcp_offset b + 2)) len
                  (Hsame _ _ Hsrc Hdst) Ft Fs Fa Ff) as [Hlook Hcore].
    pose proof (process_printed LittleEndian tL
                  (wire_key LittleEndian (frame_src b) (frame_dst b))
                  (read_tcphdr LittleEndian b (tcp_offset b))
                  (load32 LittleEndian b 26) (load32 LittleEndian b 30)
                  (load16 LittleEndian b (tcp_offset b))
                  (load16 LittleEndian b (tcp_offset b + 2)) len) as HpL.
    pose proof (process_printed BigEndian tB
                  (wire_key BigEndian (frame_src b) (frame_dst b))
                  (read_tcphdr BigEndian b (tcp_offset b))
                  (load32 BigEndian b 26) (load32 BigEndian b 30)
                  (load16 BigEndian b (tcp_offset b))
                  (load16 BigEndian b (tcp_offset b + 2)) len) as HpB.
    pose proof (process_other_key LittleEndian tL
                  (wire_key LittleEndian (frame_src b) (frame_dst b))
                  (read_tcphdr LittleEndian b (tcp_offset b))
                  (load32 LittleEndian b 26) (load32 LittleEndian b 30)
                  (load16 LittleEndian b (tcp_offset b))
                  (load16 LittleEndian b (tcp_offset b + 2)) len) as HoL.
    pose proof (process_other_key BigEndian tB
                  (wire_key BigEndian (frame_src b) (frame_dst b))
                  (read_tcphdr BigEndian b (tcp_offset b))
                  (load32 BigEndian b 26) (load32 BigEndian b 30)
                  (load16 BigEndian b (tcp_offset b))
                  (load16 BigEndian b (tcp_offset b + 2)) len) as HoB.
    destruct (process_tcp_packet LittleEndian tL _ _ _ _ _ _ len) as [tL' evsL].
    destruct (process_tcp_packet BigEndian tB _ _ _ _ _ _ len) as [tB' evsB].
    cbn [fst snd] in *. split; [reflexivity |]. split.
    + intros A B HA HB'.
      destruct (decide (wire_key LittleEndian A B
                        = wire_key LittleEndian (frame_src b) (frame_dst b)))
        as [Heq | Hne].
      * pose proof (proj1 (wire_key_hosts A B _ _ HA HB' Hsrc Hdst) Heq) as Heq'.
        rewrite Heq, Heq'. exact Hlook.
      * assert (wire_key BigEndian A B
                <> wire_key BigEndian (frame_src b) (frame_dst b)) as Hne'.
        { intros Heq'. apply Hne.
          exact (proj2 (wire_key_hosts A B _ _ HA HB' Hsrc Hdst) Heq'). }
        rewrite (HoL _ Hne), (HoB _ Hne'). apply Hsame; assumption.
    + rewrite HpL, HpB, Hcore.
      rewrite !ntohs_load16, !ip_to_string_load32. reflexivity.
Qed.

Lemma capture_hosts (rs : list RecvResult) :
  forall (buffer : Buffer) (tL tB : Tracker),
    same_flows tL tB ->
    same_flows (tracker_of (capture LittleEndian (buffer, tL) rs))
               (tracker_of (capture BigEndian (buffer, tB) rs))
    /\ map (printed LittleEndian) (events_of (capture LittleEndian (buffer, tL) rs))
       = map (printed BigEndian) (events_of (capture BigEndian (buffer, tB) rs)).
Proof.
  induction rs as [| r rs IH]; intros buffer tL tB Hsame.
  - split; [exact Hsame | reflexivity].
  - cbn [capture].
    destruct (loop_body_hosts buffer tL tB r Hsame) as (Hbuf & Hsame' & Hev).
    unfold tracker_of, events_of in *.
    destruct (loop_body LittleEndian (buffer, tL) r) as [[bL tL'] evsL].
    destruct (loop_body BigEndian (buffer, tB) r) as [[bB tB'] evsB].
    cbn [fst snd] in *. subst bB.
    destruct (IH bL tL' tB' Hsame') as [IH1 IH2].
    destruct (capture LittleEndian (bL, tL') rs) as [stL evsL'].
    destruct (capture BigEndian (bL, tB') rs) as [stB evsB'].
    cbn [fst snd] in *. split; [exact IH1 |].
    rewrite !map_app. rewrite Hev, IH2. reflexivity.
Qed.

(** X23. The program behaves alike on little-endian and big-endian hosts:
    for the same frames received, from the same buffer and the empty tracker,
    the lines printed (flag, states, addresses through [ip_to_string], ports,
    byte count) are the same, and after the run the two trackers hold the
    same state, or none, for the flow between any two endpoints. *)
Theorem capture_host_independent (buffer : Buffer) (rs : list RecvResult) :
  map (printed LittleEndian) (events_of (capture LittleEndian (buffer, ∅) rs))
  = map (printed BigEndian) (events_of (capture BigEndian (buffer, ∅) rs))
  /\ (forall A B, valid_endpoint A -> valid_endpoint B ->
        tracker_of (capture LittleEndian (buffer, ∅) rs)
          !! wire_key LittleEndian A B
        = tracker_of (capture BigEndian (buffer, ∅) rs)
            !! wire_key BigEndian A B).
Proof.
  assert (same_flows ∅ ∅) as Hempty.
  { intros A B _ _. rewrite !lookup_empty. reflexivity. }
  destruct (capture_hosts rs buffer ∅ ∅ Hempty) as [Hsame Hev].
  split; [exact Hev | exact Hsame].
Qed.

Lemma capture_host_independent_witness :
  tracker_of (capture LittleEndian (zero_buffer, ∅) (map Received [frame_syn]))
    !! wire_key LittleEndian (mkEndpoint 192 168 1 100 8080) (mkEndpoint 10 0 0 1 80)
  = tracker_of (capture BigEndian (zero_buffer, ∅) (map Received [frame_syn]))
      !! wire_key BigEndian (mkEndpoint 192 168 1 100 8080) (mkEndpoint 10 0 0 1 80).
Proof.
  apply (proj2 (capture_host_independent zero_buffer (map Received [frame_syn])));
    unfold valid_endpoint, octet; simpl; lia.
Defined.

(* ------------------------------------------------------------------ *)
(** ** Bytes left in the buffer *)

Lemma recv_into_beyond (buffer : Buffer) (frame : list byte) (i : nat) :
  (length frame <= i)%nat -> recv_into buffer frame i = buffer i.
Proof.
  intros Hi. unfold recv_into. rewrite lookup_ge_None_2 by exact Hi. reflexivity.
Qed.

(** X24. The loop decodes the buffer, not the bytes received: what a
    reception did not overwrite is read as the earlier frames left it. A
    reception of zero bytes therefore makes the loop decode and track the
    last frame once more; after SYN, SYN/ACK and a FIN, it moves the flow
    from FIN_WAIT_1 to CLOSING as a second FIN would. *)
Theorem empty_frame_replays_buffer (h : Endianness) (buffer : Buffer)
    (t : Tracker) (frame : list byte) :
  (forall i, (length frame <= i)%nat -> recv_into buffer frame i = buffer i)
  /\ decode_frame h (recv_into (recv_into buffer frame) [])
     = decode_frame h (recv_into buffer frame)
  /\ (forall s, decode_frame h (recv_into buffer frame) = Some s ->
        tracker_of (loop_body h (recv_into buffer frame, t) (Received []))
        = fst (track_segment h t s)
        /\ events_of (loop_body h (recv_into buffer frame, t) (Received []))
           = snd (track_segment h t s))
  /\ tracker_of (capture h (buffer, ∅)
                   (map Received [frame_syn; frame_synack; frame_fin; []]))
     !! flow_key h = Some CLOSING.
Proof.
  split; [intros i Hi; apply recv_into_beyond; exact Hi |].
  split; [reflexivity |]. split.
  - intros s Hs. unfold tracker_of, events_of, loop_body. cbn [fst snd].
    change (recv_into (recv_into buffer frame) []) with (recv_into buffer frame).
    rewrite Hs. destruct (track_segment h t s) as [t' evs]. split; reflexivity.
  - destruct h; vm_compute; reflexivity.
Qed.

Lemma empty_frame_replays_buffer_witness :
  recv_into zero_buffer frame_syn_truncated 52%nat = zero_buffer 52%nat.
Proof.
  apply (proj1 (empty_frame_replays_buffer LittleEndian zero_buffer ∅
                  frame_syn_truncated)).
  vm_compute. lia.
Defined.
